(** * fondat-core: the request-dispatch pipeline, embedded in Rocq

    A shallow embedding of [fondat/resource.py] ([authorize], the
    [resource]/[operation] markers, [container_resource]) and of
    [fondat/http.py] ([Chain.handle], [_subordinate], the parameter sources,
    [handle_error], [Application.handle] and [Application._handle]).

    Conventions.
    - A Python call that may raise is a [result]: [Return v] or [Raise e].
    - [await] is sequencing: a request is processed by a single task.
    - The request object is mutable and shared by the filters and the
      handler; it is threaded through as part of the [world], together with
      an ordered call log and the records sent to the module logger. *)

From Stdlib Require Import List String Ascii Bool ZArith Lia.
From Stdlib Require Strings.Byte DecimalString.
Import ListNotations.
Open Scope string_scope.
Open Scope Z_scope.

Set Implicit Arguments.
Set Warnings "-register-all".

(** ** Exceptions *)

(** The exception classes that the two modules raise, catch or let through.
    The first six are the subclasses of [fondat.error.Error] that the code
    names; [OtherError] stands for the remaining status classes. *)
Inductive exn_class : Type :=
| BadRequestError
| UnauthorizedError
| ForbiddenError
| NotFoundError
| MethodNotAllowedError
| InternalServerError
| OtherError (status : Z)
| TypeError
| ValueError
| KeyError
| IndexError
| AttributeError
| NameError
| NotImplementedError
| RuntimeError
| StopAsyncIteration
| CancelledError.

(** An exception instance: its class, [args] and [__cause__]. *)
Inductive exn : Type :=
| Exn (cls : exn_class) (args : list string) (cause : option exn).

Definition exn_cls (e : exn) : exn_class := let 'Exn c _ _ := e in c.
Definition exn_args (e : exn) : list string := let 'Exn _ a _ := e in a.
Definition exn_cause (e : exn) : option exn := let 'Exn _ _ c := e in c.

(** [raise C] and [raise C(msg)]. *)
Definition exn_new (c : exn_class) : exn := Exn c [] None.
Definition exn_msg (c : exn_class) (msg : string) : exn := Exn c [msg] None.
(** [raise C from ex]. *)
Definition exn_from (c : exn_class) (ex : exn) : exn := Exn c [] (Some ex).

Definition exn_class_eqb (a b : exn_class) : bool :=
  match a, b with
  | BadRequestError, BadRequestError
  | UnauthorizedError, UnauthorizedError
  | ForbiddenError, ForbiddenError
  | NotFoundError, NotFoundError
  | MethodNotAllowedError, MethodNotAllowedError
  | InternalServerError, InternalServerError
  | TypeError, TypeError
  | ValueError, ValueError
  | KeyError, KeyError
  | IndexError, IndexError
  | AttributeError, AttributeError
  | NameError, NameError
  | NotImplementedError, NotImplementedError
  | RuntimeError, RuntimeError
  | StopAsyncIteration, StopAsyncIteration
  | CancelledError, CancelledError => true
  | OtherError s, OtherError t => Z.eqb s t
  | _, _ => false
  end.

(** [isinstance(e, C)] for one of the classes above (none of the classes
    listed is a subclass of another one listed, except under [Error] and
    [Exception], which have their own predicates below). *)
Definition isinstance (e : exn) (c : exn_class) : bool :=
  exn_class_eqb (exn_cls e) c.

(** [isinstance(e, fondat.error.Error)]: the declared error taxonomy. *)
Definition is_Error (e : exn) : bool :=
  match exn_cls e with
  | BadRequestError | UnauthorizedError | ForbiddenError | NotFoundError
  | MethodNotAllowedError | InternalServerError | OtherError _ => true
  | _ => false
  end.

(** [isinstance(e, Exception)]: everything but [asyncio.CancelledError],
    which derives from [BaseException] only. *)
Definition is_Exception (e : exn) : bool :=
  match exn_cls e with
  | CancelledError => false
  | _ => true
  end.

(** Modelled from the spec: [fondat.error] is not part of the sources; the
    spec (section 7) says that each error of the taxonomy carries a wire
    status code.  The codes are those of [http.HTTPStatus]. *)
Definition exn_status (e : exn) : Z :=
  match exn_cls e with
  | BadRequestError => 400
  | UnauthorizedError => 401
  | ForbiddenError => 403
  | NotFoundError => 404
  | MethodNotAllowedError => 405
  | InternalServerError => 500
  | OtherError s => s
  | _ => 0
  end.

(** ** Results *)

Inductive result (A : Type) : Type :=
| Return (a : A)
| Raise (e : exn).

Arguments Return {A} a.
Arguments Raise {A} e.

Definition rbind {A B : Type} (m : result A) (k : A -> result B) : result B :=
  match m with
  | Return a => k a
  | Raise e => Raise e
  end.

Declare Scope result_scope.
Delimit Scope result_scope with result.
Notation "x <- m ;; k" := (rbind m (fun x => k))
  (at level 61, m at next level, right associativity) : result_scope.

(** ** Module namespaces

    A bare name in a function body is looked up, when the function runs, in
    the globals of its module and then in the builtins; an unbound name
    raises [NameError] at that point.  Only the bindings that the embedded
    functions look up by bare name matter here. *)

Inductive binding : Type :=
| BExnClass (c : exn_class)
| BCoroutineTest
| BOther.

Fixpoint lookup {A : Type} (k : string) (l : list (string * A)) : option A :=
  match l with
  | [] => None
  | (k', v) :: rest => if String.eqb k k' then Some v else lookup k rest
  end.

Definition name_error (name : string) : exn :=
  exn_msg NameError ("name '" ++ name ++ "' is not defined").

Definition resolve (globals : list (string * binding)) (name : string)
  : result binding :=
  match lookup name globals with
  | Some b => Return b
  | None => Raise (name_error name)
  end.

(** [isinstance(x, cls)] where [x] is [None] or an exception and [cls] is
    whatever the name is bound to. *)
Definition isinstance_binding (x : option exn) (b : binding) : result bool :=
  match b with
  | BExnClass c =>
      Return (match x with Some e => isinstance e c | None => false end)
  | _ =>
      Raise (exn_msg TypeError
        "isinstance() arg 2 must be a type, a tuple of types, or a union")
  end.

(** [name(f)] where [name] is expected to be bound to a test for coroutine
    functions such as [inspect.iscoroutinefunction]. *)
Definition call_coroutine_test (globals : list (string * binding))
    (name : string) (is_coroutine : bool) : result bool :=
  (b <- resolve globals name ;;
   match b with
   | BCoroutineTest => Return is_coroutine
   | _ => Raise (exn_msg TypeError "object is not callable")
   end)%result.

(** ** Strings *)

(** [str.lower()] on ASCII letters (request methods are ASCII tokens). *)
Definition ascii_lower (c : ascii) : ascii :=
  let n := nat_of_ascii c in
  if andb (Nat.leb 65 n) (Nat.leb n 90) then ascii_of_nat (n + 32) else c.

Fixpoint lower (s : string) : string :=
  match s with
  | EmptyString => EmptyString
  | String c rest => String (ascii_lower c) (lower rest)
  end.

(** [s.split(sep)] for a one-character separator. *)
Fixpoint split (sep : ascii) (s : string) : list string :=
  match s with
  | EmptyString => [EmptyString]
  | String c rest =>
      if Ascii.eqb c sep then EmptyString :: split sep rest
      else match split sep rest with
           | [] => [String c EmptyString]
           | w :: ws => String c w :: ws
           end
  end.

(** [s.startswith(p)] and [s[n:]]. *)
Definition startswith (s p : string) : bool := String.prefix p s.

Fixpoint string_drop (n : nat) (s : string) : string :=
  match n, s with
  | O, _ => s
  | S n', String _ rest => string_drop n' rest
  | S _, EmptyString => EmptyString
  end.

(** [s.rstrip(c)]. *)
Fixpoint rstrip (c : ascii) (s : string) : string :=
  match s with
  | EmptyString => EmptyString
  | String a rest =>
      match rstrip c rest with
      | EmptyString => if Ascii.eqb a c then EmptyString
                       else String a EmptyString
      | r => String a r
      end
  end.

(** [needle in haystack]. *)
Fixpoint contains (needle haystack : string) : bool :=
  if String.prefix needle haystack then true
  else match haystack with
       | EmptyString => false
       | String _ rest => contains needle rest
       end.

(** ** Messages *)

Definition bytes : Type := list Byte.byte.

(** Modelled from the spec: [fondat.types.Stream] is not part of the
    sources; the spec (section 3) describes a body as a byte-chunk sequence
    with known or unknown total length and a declared content type. *)
Record Stream : Type := {
  content_type : string;
  content_length : option Z;
  chunks : list bytes
}.

(** Modelled from the spec: [fondat.types.BytesStream(content, content_type)],
    a stream over one buffer whose length is known. *)
Definition BytesStream (content : bytes) (ctype : string) : Stream :=
  {| content_type := ctype;
     content_length := Some (Z.of_nat (List.length content));
     chunks := [content] |}.

Definition octet_stream : string := "application/octet-stream".

(** A multi-valued mapping ([multidict]); [get] returns the first value. *)
Definition multidict : Type := list (string * string).

Definition md_get (key : string) (d : multidict) : option string :=
  lookup key d.

(** [CIMultiDict]: keys compare without regard to case. *)
Fixpoint ci_get (key : string) (d : multidict) : option string :=
  match d with
  | [] => None
  | (k, v) :: rest =>
      if String.eqb (lower k) (lower key) then Some v else ci_get key rest
  end.

(** [headers[key] = value]: the entries under [key] are replaced by one. *)
Definition ci_set (key value : string) (d : multidict) : multidict :=
  (filter (fun kv => negb (String.eqb (lower (fst kv)) (lower key))) d
   ++ [(key, value)])%list.

(** [class Message]: headers, cookies, body.  [cookies] gives, for each
    key, the value of the morsel that is kept under it. *)
Record Message : Type := {
  headers : multidict;
  cookies : multidict;
  body : option Stream
}.

(** [class Request(Message)]. *)
Record Request : Type := {
  request_message : Message;
  method : string;
  path : string;
  version : string;
  query : multidict
}.

(** [class Response(Message)]. *)
Record Response : Type := {
  response_message : Message;
  status : Z
}.

Definition HTTPStatus_OK : Z := 200.
Definition HTTPStatus_NO_CONTENT : Z := 204.

(** [Response()]: no header, no cookie, no body, status 200. *)
Definition Response_new : Response :=
  {| response_message := {| headers := []; cookies := []; body := None |};
     status := HTTPStatus_OK |}.

Definition set_path (r : Request) (p : string) : Request :=
  {| request_message := request_message r; method := method r; path := p;
     version := version r; query := query r |}.

Definition set_request_body (r : Request) (b : option Stream) : Request :=
  {| request_message :=
       {| headers := headers (request_message r);
          cookies := cookies (request_message r);
          body := b |};
     method := method r; path := path r;
     version := version r; query := query r |}.

Definition set_status (r : Response) (s : Z) : Response :=
  {| response_message := response_message r; status := s |}.

Definition set_body (r : Response) (b : option Stream) : Response :=
  {| response_message :=
       {| headers := headers (response_message r);
          cookies := cookies (response_message r);
          body := b |};
     status := status r |}.

Definition set_header (r : Response) (k v : string) : Response :=
  {| response_message :=
       {| headers := ci_set k v (headers (response_message r));
          cookies := cookies (response_message r);
          body := body (response_message r) |};
     status := status r |}.

(** ** Values *)

(** The values that flow through dispatch: decoded parameters, operation
    results, what filters yield and what handlers return. *)
Inductive pyval : Type :=
| VNone
| VBool (b : bool)
| VInt (z : Z)
| VStr (s : string)
| VBytes (b : bytes)
| VStream (s : Stream)
| VResponse (r : Response).

(** Truth value of [if v:].  [Message] defines neither [__bool__] nor
    [__len__], so a response is always true. *)
Definition truthy (v : pyval) : bool :=
  match v with
  | VNone => false
  | VBool b => b
  | VInt z => negb (Z.eqb z 0)
  | VStr s => negb (String.eqb s EmptyString)
  | VBytes b => match b with [] => false | _ => true end
  | VStream _ => true
  | VResponse _ => true
  end.

(** Keyword arguments, in binding order. *)
Definition kwargs : Type := list (string * pyval).

(** ** Type hints *)

(** A class used as a type hint: its name and, for a class decorated with
    [@resource], the tag of its [_fondat_resource] marker. *)
Record pytype : Type := {
  ty_name : string;
  ty_fondat_resource : option string
}.

(** [type(None)]. *)
Definition NoneType : pytype :=
  {| ty_name := "NoneType"; ty_fondat_resource := None |}.

(** [http.py]: which attribute of the request a string source reads. *)
Inductive request_attr : Type := attr_query | attr_headers | attr_cookies.

(** [class ParamIn] and its subclasses in [http.py]: [_InString(attr, key,
    description)] and [_InBody]. *)
Inductive ParamIn : Type :=
| _InString (attr : request_attr) (key : string) (description : string)
| _InBody.

Definition InQuery (name : string) : ParamIn :=
  _InString attr_query name "query parameter".
Definition InHeader (name : string) : ParamIn :=
  _InString attr_headers name "request header".
Definition InCookie (name : string) : ParamIn :=
  _InString attr_cookies name "request cookie".
Definition InBody : ParamIn := _InBody.

(** [ParamIn.__str__]. *)
Definition ParamIn_str (p : ParamIn) : string :=
  match p with
  | _InString _ key description => description ++ ": " ++ key
  | _InBody => "request body"
  end.

(** One metadata argument of [Annotated[T, ...]]. *)
Inductive annotation : Type :=
| AnnParamIn (p : ParamIn)
| AnnOther (label : string).

(** A type hint: a plain type, or [Annotated[T, a1, ..., an]]. *)
Inductive hint : Type :=
| Plain (t : pytype)
| Annotated (t : pytype) (anns : list annotation).

(** ** Objects *)

Inductive param_kind : Type :=
| POSITIONAL_OR_KEYWORD
| VAR_POSITIONAL
| VAR_KEYWORD.

(** An entry of [inspect.signature(f).parameters]; [p_default = None] is
    [inspect.Parameter.empty]. *)
Record Param : Type := {
  p_name : string;
  p_kind : param_kind;
  p_default : option pyval
}.

(** What dispatch and the decorators ask of a function: whether it is a
    coroutine function, its signature, its type hints with extras (or the
    exception that [typing.get_type_hints] raises) and what a call with
    keyword arguments does. *)
Record function : Type := {
  fn_coroutine : bool;
  fn_signature : list Param;
  fn_hints : result (list (string * hint));
  fn_call : kwargs -> result pyval
}.

(** An object of the resource tree.
    - [getattr_ name] is [Some v] when [getattr(o, name)] gives [v] and
      [None] when it raises [AttributeError];
    - [getitem_] is [__getitem__], absent when the object is not
      subscriptable;
    - [call_], present when [callable(o)], gives the function facet of the
      object and what [o()] returns. *)
Inductive obj : Type :=
| PyNone
| PyValue (v : pyval)
| PyObject (getattr_ : string -> option obj)
           (getitem_ : option (string -> result obj))
           (call_ : option (function * result obj)).

(** [getattr(o, name, None)].  Plain values carry none of the attributes
    that the code asks for (the [_fondat_*] markers). *)
Definition getattr (o : obj) (name : string) : obj :=
  match o with
  | PyObject ga _ _ =>
      match ga name with
      | Some v => v
      | None => PyNone
      end
  | _ => PyNone
  end.

Definition is_None (o : obj) : bool :=
  match o with
  | PyNone => true
  | _ => false
  end.

Definition callable (o : obj) : bool :=
  match o with
  | PyObject _ _ (Some _) => true
  | _ => false
  end.

(** [types.SimpleNamespace] with the given fields. *)
Definition SimpleNamespace (fields : list (string * obj)) : obj :=
  PyObject (fun name => lookup name fields) None None.

(** [setattr(o, name, v)] on an object that takes attributes. *)
Definition setattr (o : obj) (name : string) (v : obj) : obj :=
  match o with
  | PyObject ga gi c =>
      PyObject (fun n => if String.eqb n name then Some v else ga n) gi c
  | _ => o
  end.

(** ** fondat/resource.py *)

Module Resource.

(** The names bound at module level in [resource.py] (imports, then
    definitions, in source order), followed by the builtins it uses. *)
Definition globals : list (string * binding) :=
  [ ("asyncio", BOther); ("functools", BOther); ("inspect", BOther);
    ("context", BOther); ("fondat", BOther); ("monitoring", BOther);
    ("logging", BOther); ("threading", BOther); ("types", BOther);
    ("wrapt", BOther); ("Iterable", BOther); ("Mapping", BOther);
    ("ForbiddenError", BExnClass ForbiddenError);
    ("UnauthorizedError", BExnClass UnauthorizedError);
    ("SecurityRequirement", BOther); ("Any", BOther); ("Literal", BOther);
    ("_logger", BOther); ("_summary", BOther); ("authorize", BOther);
    ("resource", BOther); ("is_resource", BOther); ("is_operation", BOther);
    ("operation", BOther); ("TAG_INNER", BOther); ("inner", BOther);
    ("query", BOther); ("mutation", BOther); ("container_resource", BOther);
    ("isinstance", BOther); ("getattr", BOther); ("setattr", BOther);
    ("property", BOther); ("super", BOther);
    ("TypeError", BExnClass TypeError); ("KeyError", BExnClass KeyError);
    ("AttributeError", BExnClass AttributeError) ].

(** A security requirement, seen through its only method: what
    [await requirement.authorize()] does. *)
Record SecurityRequirement : Type := {
  req_authorize : result unit
}.

(** The [for] loop of [authorize]; [exception] is the local variable. *)
Fixpoint authorize_loop (security : list SecurityRequirement)
    (exception : option exn) : result unit :=
  match security with
  | [] =>
      match exception with
      | Some e => Raise e
      | None => Return tt
      end
  | requirement :: rest =>
      match req_authorize requirement with
      | Return _ => Return tt
      | Raise ex =>
          if isinstance ex ForbiddenError then
            (cls <- resolve globals "ForbiddenException" ;;
             b <- isinstance_binding exception cls ;;
             if negb b then authorize_loop rest (Some ex)
             else authorize_loop rest exception)%result
          else if isinstance ex UnauthorizedError then
            match exception with
            | None => authorize_loop rest (Some ex)
            | Some _ => authorize_loop rest exception
            end
          else Raise ex
      end
  end.

(** [authorize(security)]; [security or ()] turns [None] into no
    requirement at all. *)
Definition authorize (security : option (list SecurityRequirement))
  : result unit :=
  authorize_loop (match security with Some l => l | None => [] end) None.

(** [resource(wrapped, tag=tag)]: mark a class as a resource.  Instances
    see the marker through their class. *)
Definition resource (tag : string) (wrapped : obj) : obj :=
  setattr wrapped "_fondat_resource"
    (SimpleNamespace [("tag", PyValue (VStr tag))]).

(** [is_resource(obj_or_type)]. *)
Definition is_resource (obj_or_type : obj) : bool :=
  negb (is_None (getattr obj_or_type "_fondat_resource")).

(** [is_resource] applied to the value of [hints.get(...)]: a class used
    as a type hint, or [None]. *)
Definition is_resource_type (t : option pytype) : bool :=
  match t with
  | Some c => match ty_fondat_resource c with Some _ => true | None => false end
  | None => false
  end.

(** [is_operation(obj_or_type)]. *)
Definition is_operation (obj_or_type : obj) : bool :=
  negb (is_None (getattr obj_or_type "_fondat_operation")).

(** The signature check of [operation]: variadic parameters are refused. *)
Fixpoint check_parameters (ps : list Param) : result unit :=
  match ps with
  | [] => Return tt
  | p :: rest =>
      match p_kind p with
      | VAR_POSITIONAL =>
          Raise (exn_msg TypeError "operation with *args is not supported")
      | VAR_KEYWORD =>
          Raise (exn_msg TypeError "operation with **kwargs is not supported")
      | POSITIONAL_OR_KEYWORD => check_parameters rest
      end
  end.

(** [operation(wrapped, security=security)].  The decorated function keeps
    the signature and hints of [wrapped] and carries the
    [_fondat_operation] marker (of which dispatch only asks whether it is
    there); calling it runs [authorize] on the requirements and then
    [wrapped].  [wrapped] stands for the function
    after [fondat.validation.validate_arguments], which is not part of the
    sources; the monitoring and context managers around the call do not
    change its outcome. *)
Definition operation (security : option (list SecurityRequirement))
    (wrapped : function) : result obj :=
  if negb (fn_coroutine wrapped) then
    Raise (exn_msg TypeError "operation must be a coroutine")
  else
    (_ <- check_parameters (fn_signature wrapped) ;;
     let wrapper : function :=
       {| fn_coroutine := true;
          fn_signature := fn_signature wrapped;
          fn_hints := fn_hints wrapped;
          fn_call := fun kw => _ <- authorize security ;; fn_call wrapped kw |}
     in
     Return
       (PyObject
          (fun name =>
             if String.eqb name "_fondat_operation"
             then Some (SimpleNamespace
                          [("publish", PyValue (VBool true));
                           ("deprecated", PyValue (VBool false))])
             else None)
          None
          (Some (wrapper, v <- fn_call wrapper [] ;; Return (PyValue v)))))%result.

(** [container_resource(resources, tag)]: subordinates are reached as
    attributes by name ([__getattr__] turns a missing key into
    [AttributeError]); the container is not subscriptable. *)
Definition container_resource (resources : list (string * obj))
    (tag : string) : obj :=
  resource tag (PyObject (fun name => lookup name resources) None None).

(** [s.endswith(suffix)] for a one-character suffix. *)
Fixpoint endswith (s : string) (c : ascii) : bool :=
  match s with
  | EmptyString => false
  | String a EmptyString => Ascii.eqb a c
  | String _ rest => endswith rest c
  end.

(** A string that may hold any character, as its code points.  (The
    strings that the code compares or cuts at ASCII characters only are
    kept as [string].) *)
Definition text : Type := list N.

(** [ch.isspace()], which [str.split()] without separator tests: the
    characters whose bidirectional type is WS, B or S or whose category is
    Zs. *)
Definition isspace (ch : N) : bool :=
  ((9 <=? ch) && (ch <=? 13)          (* tab, line feed, ..., carriage return *)
   || (28 <=? ch) && (ch <=? 32)      (* separators FS, GS, RS, US; space *)
   || (ch =? 133)                     (* U+0085 next line *)
   || (ch =? 160)                     (* U+00A0 no-break space *)
   || (ch =? 5760)                    (* U+1680 ogham space mark *)
   || (8192 <=? ch) && (ch <=? 8202)  (* U+2000 en quad ... U+200A hair space *)
   || (ch =? 8232) || (ch =? 8233)    (* U+2028, U+2029 *)
   || (ch =? 8239)                    (* U+202F narrow no-break space *)
   || (ch =? 8287)                    (* U+205F medium mathematical space *)
   || (ch =? 12288))%N.               (* U+3000 ideographic space *)

(** [s.split()]: the maximal runs of characters that are not whitespace;
    [cur] is the run being read. *)
Fixpoint split_whitespace (s : text) (cur : text) : list text :=
  match s with
  | [] =>
      match cur with
      | [] => []
      | _ => [cur]
      end
  | ch :: rest =>
      if isspace ch then
        match cur with
        | [] => split_whitespace rest []
        | _ => cur :: split_whitespace rest []
        end
      else split_whitespace rest (cur ++ [ch])%list
  end.

(** [word.endswith(".")]. *)
Definition endswith_period (word : text) : bool :=
  match rev word with
  | ch :: _ => (ch =? 46)%N
  | [] => false
  end.

(** [" ".join(words)]. *)
Fixpoint join_space (words : list text) : text :=
  match words with
  | [] => []
  | [word] => word
  | word :: rest => (word ++ 32%N :: join_space rest)%list
  end.

(** The loop of [_summary]: the words up to and including the first one
    that ends with a period. *)
Fixpoint summary_words (ws : list text) : list text :=
  match ws with
  | [] => []
  | word :: rest =>
      if endswith_period word then [word] else word :: summary_words rest
  end.

Section Summary.

(** [str.capitalize], a builtin: the case tables of Unicode are not
    represented. *)
Variable capitalize : text -> text.

(** [_summary(function)], from [function.__doc__] and
    [function.__name__]. *)
Definition _summary (doc : option text) (name : text) : text :=
  match doc with
  | None | Some [] => (capitalize name ++ [46%N])%list
  | Some d => join_space (summary_words (split_whitespace d []))
  end.

End Summary.

(** [TAG_INNER]. *)
Definition TAG_INNER : string := "__inner__".

(** [inner(wrapped, method=method, security=security)], for an outer
    instance [outer]: the object that the property returns, an instance of
    the class [Inner] made for [wrapped].  [wrapped] is the decorated
    method bound to [outer]; the proxy keeps its signature and hints
    ([functools.update_wrapper]).  The class carries the resource marker,
    then the proxy under [method] and under [__call__]; the instance
    carries [_outer].

    This is what the code does for a [method] that does not begin with an
    underscore: there [setattr(Inner, method, proxy)] adds an attribute to
    the class and does nothing else.  A name that Python gives a meaning
    of its own on a class ([__init__], [__new__], [__name__],
    [__class__], [__getattribute__], ...) is outside what is represented
    here, and the properties of [inner] below are stated for the other
    names. *)
Definition inner (method : string)
    (security : option (list SecurityRequirement)) (wrapped : function)
    (outer : obj) : result obj :=
  if negb (fn_coroutine wrapped) then
    Raise (exn_msg TypeError "inner resource method must be a coroutine")
  else if String.eqb method EmptyString then
    Raise (exn_msg TypeError "method name is required")
  else
    (proxy <- operation security wrapped ;;
     let Inner :=
       resource TAG_INNER
         (PyObject (fun _ => None) None
            (match proxy with
             | PyObject _ _ c => c
             | _ => None
             end)) in
     let Inner := setattr Inner method proxy in
     let Inner := setattr Inner "__call__" proxy in
     Return (setattr Inner "_outer" outer))%result.

(** [query(wrapped, method="get")] and [mutation(wrapped, method="post")]
    (with a trailing underscore: [query] is also the attribute of a
    request). *)
Definition query_ (method : option string)
    (security : option (list SecurityRequirement)) (wrapped : function)
    (outer : obj) : result obj :=
  inner (match method with Some m => m | None => "get" end)
        security wrapped outer.

Definition mutation_ (method : option string)
    (security : option (list SecurityRequirement)) (wrapped : function)
    (outer : obj) : result obj :=
  inner (match method with Some m => m | None => "post" end)
        security wrapped outer.

End Resource.

(** ** fondat/http.py *)

Module Http.

Import Resource.

(** *** The world of one request *)

(** What awaiting one step of an asynchronous generator does: it yields a
    value and stays suspended, or raises ([StopAsyncIteration] when the
    generator finishes without yielding). *)
Inductive step (K : Type) : Type :=
| Yield (v : pyval) (k : K)
| Throw (e : exn).

Arguments Yield {K} v k.
Arguments Throw {K} e.

(** An entry of the call log: which step of the pipeline ran, in order.
    - [Started i]: the first step of filter number [i] was awaited;
    - [Resumed i v out]: [asend(v)] was awaited on filter number [i], with
      outcome [out];
    - [Handled]: the handler of the chain was awaited;
    - [Invoked kw]: the operation was called with keyword arguments [kw]. *)
Inductive event : Type :=
| Started (i : nat)
| Resumed (i : nat) (fed : pyval) (out : step unit)
| Handled
| Invoked (kw : kwargs).

(** A record sent to [_logger]: level, message, [exc_info]. *)
Inductive log_record : Type :=
| LogError (msg : string) (exc_info : exn).

Record world : Type := {
  w_request : Request;
  w_calls : list event;
  w_log : list log_record
}.

Definition initial (request : Request) : world :=
  {| w_request := request; w_calls := []; w_log := [] |}.

(** State and exception passing: a computation reads and updates the world
    and returns a value or raises. *)
Definition M (A : Type) : Type := world -> world * result A.

Definition ret {A : Type} (a : A) : M A := fun w => (w, Return a).
Definition raise {A : Type} (e : exn) : M A := fun w => (w, Raise e).

Definition bind {A B : Type} (m : M A) (k : A -> M B) : M B :=
  fun w =>
    match m w with
    | (w', Return a) => k a w'
    | (w', Raise e) => (w', Raise e)
    end.

Declare Scope M_scope.
Delimit Scope M_scope with M.
Notation "x <- m ;; k" := (bind m (fun x => k))
  (at level 61, m at next level, right associativity) : M_scope.
Notation "m ;;; k" := (bind m (fun _ => k))
  (at level 61, right associativity) : M_scope.

Definition record (ev : event) : M unit :=
  fun w => ({| w_request := w_request w;
               w_calls := (w_calls w ++ [ev])%list;
               w_log := w_log w |}, Return tt).

Definition logger_error (msg : string) (exc : exn) : M unit :=
  fun w => ({| w_request := w_request w;
               w_calls := w_calls w;
               w_log := (w_log w ++ [LogError msg exc])%list |}, Return tt).

Definition get_request : M Request := fun w => (w, Return (w_request w)).

Definition set_request (r : Request) : M unit :=
  fun w => ({| w_request := r; w_calls := w_calls w; w_log := w_log w |},
            Return tt).

(** A step of user code that reads and may rewrite the request. *)
Definition on_request {A : Type} (f : Request -> Request * result A) : M A :=
  fun w =>
    let (r, a) := f (w_request w) in
    ({| w_request := r; w_calls := w_calls w; w_log := w_log w |}, a).

Definition lift {A : Type} (r : result A) : M A := fun w => (w, r).

(** *** Filters *)

(** What awaiting [asend(response)] on a suspended generator does: the
    generator may rewrite the request, may change in place the response
    object that it was sent (a response is mutable and is passed by
    reference), and then yields a value or raises. *)
Record resumed : Type := Resume {
  resumed_request : Request;
  resumed_edit : Response -> Response;
  resumed_outcome : step unit
}.

(** A generator suspended at its first [yield]: [asend(response)] resumes
    it.  It is resumed at most once by the chain, so what it would do at a
    later [yield] is not represented. *)
Definition suspended : Type := pyval -> Request -> resumed.

(** The object that was sent to a generator, as the generator left it:
    only a response can be changed in place. *)
Definition sent_after (sent : pyval) (edit : Response -> Response) : pyval :=
  match sent with
  | VResponse r => VResponse (edit r)
  | _ => sent
  end.

(** The generator of [async def f(request): ...; yield] once suspended:
    resumed, it finishes without touching anything. *)
Definition observer : suspended :=
  fun _ request => Resume request (fun r => r) (Throw (exn_new StopAsyncIteration)).

(** [f(request)] for a filter [f] of the chain.
    - [AsyncGen first]: an asynchronous generator; [first] is what
      [__anext__()] does when awaited;
    - [Coroutine run]: a coroutine; [run] is what awaiting it does;
    - [Neither call]: an ordinary call, whose value is neither of the two
      and is ignored. *)
Inductive filter : Type :=
| AsyncGen (first : Request -> Request * step suspended)
| Coroutine (run : Request -> Request * result pyval)
| Neither (call : Request -> Request * result unit).

(** The generator finished: [StopAsyncIteration]. *)
Definition stop {K : Type} : step K := Throw (exn_new StopAsyncIteration).

(** [class Chain]. *)
Record Chain : Type := {
  chain_filters : list filter;
  chain_handler : M pyval
}.

(** The first loop of [Chain.handle], from filter number [i] on.  [rewind]
    and [response] are the local variables; the result is their value when
    the loop ends, by exhaustion or by [break]. *)
Fixpoint forward (i : nat) (fs : list filter)
    (rewind : list (nat * suspended)) (response : pyval)
  : M (list (nat * suspended) * pyval) :=
  match fs with
  | [] => ret (rewind, response)
  | AsyncGen first :: rest =>
      fun w =>
        let (r, s) := first (w_request w) in
        let w' := {| w_request := r;
                     w_calls := (w_calls w ++ [Started i])%list;
                     w_log := w_log w |} in
        match s with
        | Yield v k =>
            if truthy v then (w', Return (rewind, v))
            else forward (S i) rest (rewind ++ [(i, k)])%list v w'
        | Throw e =>
            if isinstance e StopAsyncIteration
            then forward (S i) rest rewind response w'
            else (w', Raise e)
        end
  | Coroutine run :: rest =>
      fun w =>
        let (r, a) := run (w_request w) in
        let w' := {| w_request := r;
                     w_calls := (w_calls w ++ [Started i])%list;
                     w_log := w_log w |} in
        match a with
        | Return v =>
            if truthy v then (w', Return (rewind, v))
            else forward (S i) rest rewind v w'
        | Raise e => (w', Raise e)
        end
  | Neither call :: rest =>
      fun w =>
        let (r, a) := call (w_request w) in
        let w' := {| w_request := r; w_calls := w_calls w;
                     w_log := w_log w |} in
        match a with
        | Return _ => forward (S i) rest rewind response w'
        | Raise e => (w', Raise e)
        end
  end.

(** The second loop of [Chain.handle], over [reversed(rewind)].  The
    variable [response] names an object: once the generator that was sent
    it has run, it names that object as the generator left it, unless the
    generator yielded a true value, which then takes its place. *)
Fixpoint backward (reversed : list (nat * suspended)) (response : pyval)
  : M pyval :=
  match reversed with
  | [] => ret response
  | (i, k) :: rest =>
      fun w =>
        let x := k response (w_request w) in
        let w' := {| w_request := resumed_request x;
                     w_calls := (w_calls w
                                 ++ [Resumed i response (resumed_outcome x)])%list;
                     w_log := w_log w |} in
        (* [response] still names the object that was sent *)
        let response := sent_after response (resumed_edit x) in
        match resumed_outcome x with
        | Yield _response _ =>
            backward rest (if truthy _response then _response else response)
                     w'
        | Throw e =>
            if isinstance e StopAsyncIteration
            then backward rest response w'
            else (w', Raise e)
        end
  end.

(** [Chain.handle(request)]. *)
Definition Chain_handle (c : Chain) : M pyval :=
  (st <- forward 0 (chain_filters c) [] VNone ;;
   let (rewind, response) := st : list (nat * suspended) * pyval in
   response <- (if negb (truthy response)
                then record Handled ;;; chain_handler c
                else ret response) ;;
   backward (rev rewind) response)%M.

(** *** Collaborators outside the sources *)

(** What [getattr(request, attr).get(key)] finds: the query string and
    the headers hold strings; the cookies ([http.cookies.SimpleCookie])
    hold, under a key, an [http.cookies.Morsel], which carries the key and
    the value. *)
Inductive found : Type :=
| Text (value : string)
| Morsel (key value : string).

(** A codec of [fondat.codec], as [get_codec(kind, hint)] returns it:
    [encode] produces a [W]; [decode] is called with a [D]. *)
Record Codec (W D : Type) : Type := {
  encode : pyval -> result W;
  decode : D -> result pyval;
  codec_content_type : string
}.

(** The functions that [http.py] imports from modules that are not part of
    the sources ([fondat.codec], [fondat.types], [fondat.validation],
    [fondat.error], [json]).  Dispatch is embedded over any behaviour they
    may have.
    - [get_codec_String h] is [get_codec(String, h)], [get_codec_Binary h]
      is [get_codec(Binary, h)]; the first encodes to a string and is
      handed, to decode, what was found in the request;
    - [is_stream h] is [is_subclass(h, Stream)];
    - [error_doc e] is [e.__doc__];
    - [json_error status detail] is
      [json.dumps(dict(error=status, detail=detail)).encode()]. *)
Record Externals : Type := {
  get_codec_String : hint -> result (Codec string found);
  get_codec_Binary : hint -> result (Codec bytes bytes);
  is_optional : hint -> bool;
  is_stream : hint -> bool;
  validate : pyval -> hint -> result unit;
  error_doc : exn -> option string;
  json_error : Z -> option string -> bytes
}.

(** The builtin class [bytes], as a type hint. *)
Definition bytes_type : hint :=
  Plain {| ty_name := "bytes"; ty_fondat_resource := None |}.

(** The names bound at module level in [http.py] (imports, then
    definitions, in source order), followed by the builtins it uses. *)
Definition globals : list (string * binding) :=
  [ ("asyncio", BOther); ("fondat", BOther); ("http", BOther);
    ("inspect", BOther); ("json", BOther); ("logging", BOther);
    ("multidict", BOther); ("typing", BOther);
    ("Callable", BOther); ("Iterable", BOther); ("MutableSequence", BOther);
    ("Binary", BOther); ("String", BOther); ("get_codec", BOther);
    ("Stream", BOther); ("BytesStream", BOther); ("is_optional", BOther);
    ("is_subclass", BOther); ("validate", BOther);
    ("Annotated", BOther); ("Any", BOther); ("Literal", BOther);
    ("_logger", BOther); ("Headers", BOther); ("Cookies", BOther);
    ("Query", BOther); ("Message", BOther); ("Request", BOther);
    ("Response", BOther); ("Chain", BOther);
    ("HTTPSecurityScheme", BOther); ("HTTPBasicSecurityScheme", BOther);
    ("APIKeySecurityScheme", BOther); ("HeaderSecurityScheme", BOther);
    ("CookieSecurityScheme", BOther); ("_subordinate", BOther);
    ("ParamIn", BOther); ("_InString", BOther); ("InQuery", BOther);
    ("InHeader", BOther); ("InCookie", BOther); ("_InBody", BOther);
    ("InBody", BOther); ("handle_error", BOther); ("Application", BOther);
    ("getattr", BOther); ("callable", BOther); ("isinstance", BOther);
    ("len", BOther); ("str", BOther); ("dict", BOther); ("list", BOther);
    ("reversed", BOther); ("bytearray", BOther); ("type", BOther);
    ("super", BOther);
    ("TypeError", BExnClass TypeError); ("ValueError", BExnClass ValueError);
    ("Exception", BOther);
    ("StopAsyncIteration", BExnClass StopAsyncIteration);
    ("NotImplementedError", BExnClass NotImplementedError) ].

(** [str(e)] for an exception: empty without arguments, the argument when
    there is one, the tuple of arguments otherwise (written here without
    the escapes of [repr]). *)
Definition exn_str (e : exn) : string :=
  match exn_args e with
  | [] => EmptyString
  | [a] => a
  | a :: rest =>
      "(" ++ fold_left (fun acc x => acc ++ ", '" ++ x ++ "'") rest
                       ("'" ++ a ++ "'") ++ ")"
  end.

(** [try: ... except (TypeError, ValueError) as e: raise mk(e)]. *)
Definition except_TypeError_ValueError {A : Type} (r : result A)
    (handler : exn -> exn) : result A :=
  match r with
  | Return a => Return a
  | Raise e =>
      if orb (isinstance e TypeError) (isinstance e ValueError)
      then Raise (handler e)
      else Raise e
  end.

(** [str(n)] for an integer. *)
Definition str_of_Z (n : Z) : string :=
  DecimalString.NilZero.string_of_int (Z.to_int n).

Section Dispatch.

Variable ext : Externals.

(** *** Traversal *)

(** [typing.get_type_hints(attr)]: the hints without their [Annotated]
    metadata. *)
Definition strip_extras (h : hint) : pytype :=
  match h with
  | Plain t => t
  | Annotated t _ => t
  end.

Definition get_type_hints (f : function) : result (list (string * pytype)) :=
  (hints <- fn_hints f ;;
   Return (map (fun nh => (fst nh, strip_extras (snd nh))) hints))%result.

(** [resource[segment]]: the object's [__getitem__], and [TypeError] for an
    object that is not subscriptable (or, for a string or bytes value,
    that is not indexed by strings). *)
Definition getitem (resource : obj) (segment : string) : result obj :=
  match resource with
  | PyObject _ (Some gi) _ => gi segment
  | PyObject _ None _ =>
      Raise (exn_msg TypeError "object is not subscriptable")
  | PyNone => Raise (exn_msg TypeError "'NoneType' object is not subscriptable")
  | PyValue _ => Raise (exn_msg TypeError "object is not subscriptable")
  end.

(** [_subordinate(resource, segment)]. *)
Definition _subordinate (resource : obj) (segment : string) : result obj :=
  let attr := getattr resource segment in
  if negb (is_None attr) then
    if is_resource attr then Return attr
    else
      match attr with
      | PyObject _ _ (Some (f, called)) =>
          (hints <- get_type_hints f ;;
           if negb (is_resource_type (lookup "return" hints))
           then Raise (exn_new NotFoundError)
           else
             b <- call_coroutine_test globals "is_coroutine_function"
                                      (fn_coroutine f) ;;
             if b : bool then called (* [await attr()] *)
             else called)%result
      | _ => Raise (exn_new NotFoundError)
      end
  else
    match getitem resource segment with
    | Raise e =>
        if isinstance e TypeError then Raise (exn_new NotFoundError)
        else Raise e
    | Return item =>
        if negb (is_resource item) then Raise (exn_new NotFoundError)
        else Return item
    end.

(** The loop [for segment in segments: resource = await
    _subordinate(resource, segment)] of [_handle]. *)
Fixpoint traverse (resource : obj) (segments : list string) : result obj :=
  match segments with
  | [] => Return resource
  | segment :: rest =>
      (r <- _subordinate resource segment ;; traverse r rest)%result
  end.

(** *** Parameter sources *)

(** [getattr(request, self.attr).get(self.key)]: a string of the query
    string or of the headers, or the morsel of a cookie. *)
Definition request_attr_get (attr : request_attr) (key : string)
    (request : Request) : option found :=
  match attr with
  | attr_query => option_map Text (md_get key (query request))
  | attr_headers =>
      option_map Text (ci_get key (headers (request_message request)))
  | attr_cookies =>
      option_map (Morsel key) (md_get key (cookies (request_message request)))
  end.

(** [BytesStream(v)] for a decoded value: [len(v)] needs a buffer. *)
Definition BytesStream_of (v : pyval) : result pyval :=
  match v with
  | VBytes b => Return (VStream (BytesStream b octet_stream))
  | _ => Raise (exn_msg TypeError "object has no len()")
  end.

(** [_InString.get(hint, request)]. *)
Definition _InString_get (self : ParamIn) (attr : request_attr)
    (key : string) (h : hint) (request : Request) : result pyval :=
  match request_attr_get attr key request with
  | None => Return VNone
  | Some value =>
      except_TypeError_ValueError
        (if is_stream ext h then
           (c <- get_codec_String ext bytes_type ;;
            v <- decode c value ;;
            BytesStream_of v)%result
         else
           (c <- get_codec_String ext h ;; decode c value)%result)
        (fun e => exn_msg BadRequestError
                    (exn_str e ++ " in " ++ ParamIn_str self))
  end.

(** [async for b in request.body: value.extend(b)]: the chunks, joined;
    the stream is left exhausted. *)
Definition read_all (s : Stream) : bytes * Stream :=
  (List.concat (chunks s),
   {| content_type := content_type s;
      content_length := content_length s;
      chunks := [] |}).

(** [_InBody.get(hint, request)]. *)
Definition _InBody_get (self : ParamIn) (h : hint) (request : Request)
  : Request * result pyval :=
  if is_stream ext h then
    (request,
     Return (match body (request_message request) with
             | Some s => VStream s
             | None => VNone
             end))
  else
    let (value, request') :=
      match body (request_message request) with
      | Some s =>
          let (value, s') := read_all s in
          (value, set_request_body request (Some s'))
      | None => ([], request)
      end in
    (request',
     except_TypeError_ValueError
       (match value with
        | [] => Return VNone
        | _ => (c <- get_codec_Binary ext h ;; decode c value)%result
        end)
       (fun e => exn_msg BadRequestError
                   (exn_str e ++ " in " ++ ParamIn_str self))).

(** [in_param.get(hint, request)]. *)
Definition ParamIn_get (in_param : ParamIn) (h : hint) : M pyval :=
  match in_param with
  | _InString attr key _ =>
      fun w => (w, _InString_get in_param attr key h (w_request w))
  | _InBody => on_request (_InBody_get in_param h)
  end.

(** *** Error responses *)

(** [handle_error(err)], the default error handler. *)
Definition handle_error (err : exn) : result pyval :=
  let detail :=
    match exn_args err with
    | a :: _ => Some a
    | [] => error_doc ext err
    end in
  let body := json_error ext (exn_status err) detail in
  let response := Response_new in
  let response := set_status response (exn_status err) in
  let response := set_header response "content-type" "application/json" in
  let response :=
    set_header response "content-length"
               (str_of_Z (Z.of_nat (List.length body))) in
  let response := set_body response (Some (BytesStream body octet_stream)) in
  Return (VResponse response).

(** *** The application *)

(** [class Application]: its attributes after [__init__]. *)
Record Application : Type := {
  root : obj;
  app_path : string;
  filters : list filter;
  error_handler : exn -> result pyval
}.

(** [Application.__init__(root, filters=..., error_handler=..., path=...)]. *)
Definition Application_init (root : obj) (filters : list filter)
    (error_handler : exn -> result pyval) (path : string)
  : result Application :=
  if negb (is_resource root) then
    Raise (exn_msg TypeError "root is not a resource")
  else
    Return {| root := root;
              app_path := rstrip "/" path ++ "/";
              filters := filters;
              error_handler := error_handler |}.

(** The first [ParamIn] among the metadata of an [Annotated] hint. *)
Fixpoint first_ParamIn (anns : list annotation) : option ParamIn :=
  match anns with
  | [] => None
  | AnnParamIn p :: _ => Some p
  | AnnOther _ :: rest => first_ParamIn rest
  end.

(** The type and the source of a parameter, from its name and hint: the
    hint's own [ParamIn] annotation, or [InQuery(name)]. *)
Definition param_source (name : string) (h : hint) : hint * ParamIn :=
  match h with
  | Annotated t anns =>
      (Plain t,
       match first_ParamIn anns with
       | Some p => p
       | None => InQuery name
       end)
  | Plain t => (Plain t, InQuery name)
  end.

(** [signature.parameters[name]]. *)
Fixpoint parameters_get (name : string) (signature : list Param)
  : result Param :=
  match signature with
  | [] => Raise (exn_msg KeyError name)
  | p :: rest =>
      if String.eqb (p_name p) name then Return p
      else parameters_get name rest
  end.

(** [params[name] = v] on a dictionary kept in insertion order. *)
Fixpoint dict_set (name : string) (v : pyval) (params : kwargs) : kwargs :=
  match params with
  | [] => [(name, v)]
  | (k, x) :: rest =>
      if String.eqb k name then (k, v) :: rest
      else (k, x) :: dict_set name v rest
  end.

(** The body of the loop over [hints.items()] for one parameter: the value
    to bind, or the exception raised. *)
Definition bind_param (signature : list Param) (name : string) (h : hint)
  : M pyval :=
  let (h', in_param) := param_source name h in
  (param <- ParamIn_get in_param h' ;;
   match param with
   | VNone =>
       p <- lift (parameters_get name signature) ;;
       match p_default p with
       | None =>
           if negb (is_optional ext h') then
             raise (exn_msg BadRequestError
                      ("expecting value in " ++ ParamIn_str in_param))
           else ret VNone
       | Some _ => ret VNone
       end
   | _ =>
       _ <- lift (except_TypeError_ValueError (validate ext param h')
                    (fun tve => exn_msg BadRequestError
                       (exn_str tve ++ " in " ++ ParamIn_str in_param))) ;;
       ret param
   end)%M.

(** The loop [for name, hint in hints.items()] of [_handle]. *)
Fixpoint bind_params (signature : list Param) (hints : list (string * hint))
    (params : kwargs) : M kwargs :=
  match hints with
  | [] => ret params
  | (name, h) :: rest =>
      if String.eqb name "return" then bind_params signature rest params
      else
        (v <- bind_param signature name h ;;
         bind_params signature rest (dict_set name v params))%M
  end.

(** [inspect.signature(operation)], [typing.get_type_hints(operation,
    include_extras=True)] and the call, for an object found under the
    method name. *)
Definition as_function (operation : obj) : result function :=
  match operation with
  | PyObject _ _ (Some (f, _)) => Return f
  | _ => Raise (exn_msg TypeError "object is not a callable object")
  end.

(** The end of [_handle]: from the result of the operation to the
    response. *)
Definition respond (return_hint : hint) (result_ : pyval) : result pyval :=
  (_ <- validate ext result_ return_hint ;;
   result_ <- (if negb (is_stream ext return_hint) then
                 return_codec <- get_codec_Binary ext return_hint ;;
                 content <- encode return_codec result_ ;;
                 Return (VStream (BytesStream content
                                    (codec_content_type return_codec)))
               else Return result_) ;;
   match result_ with
   | VStream s =>
       let response := set_body Response_new (Some s) in
       let response := set_header response "Content-Type" (content_type s) in
       match content_length s with
       | Some n =>
           if Z.eqb n 0
           then Return (VResponse (set_status response HTTPStatus_NO_CONTENT))
           else Return (VResponse
                  (set_header response "Content-Length" (str_of_Z n)))
       | None => Return (VResponse response)
       end
   | _ =>
       Raise (exn_msg AttributeError "object has no attribute 'content_type'")
   end)%result.

(** [request.path.split("/") if request.path else ()]. *)
Definition path_segments (p : string) : list string :=
  if String.eqb p EmptyString then [] else split "/" p.

(** [Application._handle(request)]. *)
Definition _handle (self : Application) : M pyval :=
  (request <- get_request ;;
   if negb (startswith (path request) (app_path self)) then
     raise (exn_new NotFoundError)
   else
     let request :=
       set_path request
         (string_drop (String.length (app_path self)) (path request)) in
     _ <- set_request request ;;
     let method := lower (method request) in
     let segments := path_segments (path request) in
     resource <- lift (traverse (root self) segments) ;;
     let operation := getattr resource method in
     if negb (is_operation operation) then
       raise (exn_new MethodNotAllowedError)
     else
       f <- lift (as_function operation) ;;
       hints <- lift (fn_hints f) ;;
       let return_hint :=
         match lookup "return" hints with
         | Some h => h
         | None => Plain NoneType
         end in
       params <- bind_params (fn_signature f) hints [] ;;
       _ <- record (Invoked params) ;;
       result_ <- lift (fn_call f params) ;;
       lift (respond return_hint result_))%M.

(** [Application.handle(request)]. *)
Definition handle (self : Application) : M pyval :=
  fun w =>
    let chain := {| chain_filters := filters self;
                    chain_handler := _handle self |} in
    match Chain_handle chain w with
    | (w', Return response) => (w', Return response)
    | (w', Raise ex) =>
        (* inner [try]: an [Error] is raised again as it is, any other
           [Exception] is replaced; the rest is not caught *)
        if orb (is_Error ex) (is_Exception ex) then
          let err := if is_Error ex then ex
                     else exn_from InternalServerError ex in
          (* outer [except fondat.error.Error as err] *)
          ((if isinstance err InternalServerError then
              match exn_cause err with
              | None =>
                  raise (exn_msg AttributeError
                           "'NoneType' object has no attribute 'args'")
              | Some cause =>
                  match exn_args cause with
                  | [] => raise (exn_msg IndexError
                                   "tuple index out of range")
                  | msg :: _ => logger_error msg cause
                  end
              end
            else ret tt) ;;;
           lift (error_handler self err))%M w'
        else (w', Raise ex)
    end.

End Dispatch.

(** *** Security schemes *)

(** Where an API key is read: the [location] of
    [APIKeySecurityScheme]. *)
Inductive key_location : Type := in_header | in_cookie.

(** [class APIKeySecurityScheme], seen through what the [filter] of a
    header scheme reads: the key, the location, and [authenticate], which
    a subclass implements and which receives the header as a string. *)
Record APIKeySecurityScheme : Type := {
  scheme_name : string;
  scheme_key : string;
  scheme_location : key_location;
  authenticate : string -> result pyval
}.

(** [HeaderSecurityScheme(name, header)]. *)
Definition HeaderSecurityScheme (name header : string)
    (authenticate : string -> result pyval) : APIKeySecurityScheme :=
  {| scheme_name := name; scheme_key := header;
     scheme_location := in_header; authenticate := authenticate |}.

(** The base classes leave [authenticate] to the subclass. *)
Definition not_implemented (value : string) : result pyval :=
  Raise (exn_new NotImplementedError).

(** The expression [fondat.context.push(auth) if auth else
    contextlib.nullcontext()]: which of the two context managers is
    built.  [fondat.context] is reached through the package [fondat];
    [contextlib] is a bare name. *)
Definition context_manager (auth : pyval) : result unit :=
  if truthy auth then Return tt
  else (_ <- resolve globals "contextlib" ;; Return tt)%result.

(** An exception that leaves the body of an asynchronous generator:
    [StopAsyncIteration] is replaced by a [RuntimeError] that has it as
    cause, any other exception goes out as it is. *)
Definition leaving_generator (e : exn) : exn :=
  if isinstance e StopAsyncIteration
  then Exn RuntimeError ["async generator raised StopAsyncIteration"] (Some e)
  else e.

(** The body of [HeaderSecurityScheme.filter], from the value found under
    the key: authenticate it if there is one, then yield once inside the
    context manager.  (The context that [fondat.context.push] installs
    around the rest of the chain is outside this model.) *)
Definition key_filter_step (self : APIKeySecurityScheme)
    (value : option string) (request : Request) : Request * step suspended :=
  match (match value with
         | Some v => authenticate self v
         | None => Return VNone
         end) with
  | Raise e => (request, Throw (leaving_generator e))
  | Return auth =>
      match context_manager auth with
      | Raise e => (request, Throw (leaving_generator e))
      | Return _ => (request, Yield VNone observer)
      end
  end.

(** [HeaderSecurityScheme.filter(request)]. *)
Definition HeaderSecurityScheme_filter (self : APIKeySecurityScheme)
  : filter :=
  AsyncGen (fun request =>
    key_filter_step self
      (ci_get (scheme_key self) (headers (request_message request)))
      request).

End Http.

(** * Concrete requirements, resources and applications *)

Module Examples.

Import Resource Http.

(** Two requirements that refuse, one that grants. *)
Definition forbids : SecurityRequirement :=
  {| req_authorize := Raise (exn_msg ForbiddenError "not allowed") |}.
Definition unauthenticated : SecurityRequirement :=
  {| req_authorize := Raise (exn_msg UnauthorizedError "who are you") |}.
Definition unauthenticated' : SecurityRequirement :=
  {| req_authorize := Raise (exn_msg UnauthorizedError "no token") |}.
Definition grants : SecurityRequirement :=
  {| req_authorize := Return tt |}.

(** Types used as hints. *)
Definition str_type : pytype :=
  {| ty_name := "str"; ty_fondat_resource := None |}.
Definition Inner_type : pytype :=
  {| ty_name := "Inner"; ty_fondat_resource := Some "__inner__" |}.

(** Collaborators: a string codec that decodes a string to [VStr] and
    refuses anything else, a binary codec that writes [None] as the empty
    buffer and anything else as one byte, no optional type, no stream
    type, a validator that accepts all. *)
Definition string_codec : Codec string found :=
  {| encode := fun v => match v with
                        | VStr s => Return s
                        | _ => Raise (exn_new TypeError)
                        end;
     decode := fun x => match x with
                        | Text s => Return (VStr s)
                        | Morsel _ _ => Raise (exn_msg TypeError "expecting str")
                        end;
     codec_content_type := "text/plain; charset=UTF-8" |}.

Definition binary_codec : Codec bytes bytes :=
  {| encode := fun v => match v with
                        | VNone => Return []
                        | _ => Return [Byte.x6f]
                        end;
     decode := fun b => Return (VBytes b);
     codec_content_type := "application/json" |}.

Definition ext0 : Externals :=
  {| get_codec_String := fun _ => Return string_codec;
     get_codec_Binary := fun _ => Return binary_codec;
     is_optional := fun _ => false;
     is_stream := fun _ => false;
     validate := fun _ _ => Return tt;
     error_doc := fun _ => None;
     json_error := fun _ _ => [Byte.x7b; Byte.x7d] |}.

(** A plain object with the given attributes. *)
Definition instance (attrs : list (string * obj)) : obj :=
  PyObject (fun name => lookup name attrs) None None.

(** A coroutine function without parameters. *)
Definition nullary (ret : option hint) (run : result pyval) : function :=
  {| fn_coroutine := true;
     fn_signature := [];
     fn_hints := Return (match ret with
                         | Some h => [("return", h)]
                         | None => []
                         end);
     fn_call := fun _ => run |}.

(** The object that [operation] returns, or [None] if it refuses. *)
Definition decorated (security : option (list SecurityRequirement))
    (wrapped : function) : obj :=
  match operation security wrapped with
  | Return o => o
  | Raise _ => PyNone
  end.

(** A resource whose [get] returns a string. *)
Definition leaf : obj :=
  resource "Leaf"
    (instance [("get", decorated None
                         (nullary (Some (Plain str_type))
                                  (Return (VStr "ok"))))]).

(** A method [child(self) -> Inner] that returns a resource: a callable
    attribute that is not itself a resource. *)
Definition child_method : obj :=
  PyObject (fun _ => None) None
    (Some ({| fn_coroutine := false;
              fn_signature := [];
              fn_hints := Return [("return", Plain Inner_type)];
              fn_call := fun _ => Return VNone |},
           Return leaf)).

Definition parent : obj :=
  resource "Parent" (instance [("child", child_method)]).

(** A resource whose items live in a dictionary:
    [def __getitem__(self, key): return self.items[key]]. *)
Definition dict_getitem (items : list (string * obj)) (key : string)
  : result obj :=
  match lookup key items with
  | Some o => Return o
  | None => Raise (exn_msg KeyError key)
  end.

Definition catalog : obj :=
  resource "Catalog"
    (PyObject (fun _ => None) (Some (dict_getitem [("1", leaf)])) None).

(** An application mounted at [/] without filters, with the default error
    handler. *)
Definition app_of (root : obj) : Application :=
  {| root := root; app_path := "/"; filters := [];
     error_handler := handle_error ext0 |}.

(** A resource whose [get] is not implemented: [raise NotImplementedError],
    an exception without arguments. *)
Definition unfinished : obj :=
  resource "Unfinished"
    (instance [("get", decorated None
                         (nullary None (Raise (exn_new NotImplementedError))))]).

(** A resource whose [get] fails with a message. *)
Definition failing : obj :=
  resource "Failing"
    (instance [("get", decorated None
                         (nullary None
                            (Raise (exn_msg RuntimeError "disk full"))))]).

Definition request_for (m p : string) : Request :=
  {| request_message := {| headers := []; cookies := []; body := None |};
     method := m; path := p; version := "1.1"; query := [] |}.

(** Two-phase filters.
    - [passes]: [yield] once; resumed, it finishes.
    - [replaces r]: [yield] once; resumed, it yields [r].
    - [short_circuits r]: yields [r] at once. *)
Definition passes : filter :=
  AsyncGen (fun request =>
    (request, Yield VNone observer)).

Definition replaces (r : Response) : filter :=
  AsyncGen (fun request =>
    (request,
     Yield VNone (fun _ request' =>
       Resume request' (fun sent => sent) (Yield (VResponse r) tt)))).

Definition short_circuits (r : Response) : filter :=
  AsyncGen (fun request =>
    (request, Yield (VResponse r) observer)).

Definition teapot : Response := set_status Response_new 418.
Definition busy : Response := set_status Response_new 503.

(** A handler that answers with an empty response. *)
Definition answers : M pyval := ret (VResponse Response_new).

(** Three filters that all go on to the handler. *)
Definition three : Chain :=
  {| chain_filters := [passes; replaces teapot; passes];
     chain_handler := answers |}.

(** Three filters of which the second answers at once. *)
Definition interrupted : Chain :=
  {| chain_filters := [replaces teapot; short_circuits busy; passes];
     chain_handler := answers |}.

(** [async def post(self, payload: Annotated[bytes, InBody]) -> str]. *)
Definition bytes_class : pytype :=
  {| ty_name := "bytes"; ty_fondat_resource := None |}.
Definition int_type : pytype :=
  {| ty_name := "int"; ty_fondat_resource := None |}.

Definition upload : function :=
  {| fn_coroutine := true;
     fn_signature := [ {| p_name := "payload";
                          p_kind := POSITIONAL_OR_KEYWORD;
                          p_default := None |} ];
     fn_hints := Return [ ("payload",
                           Annotated bytes_class [AnnParamIn InBody]);
                          ("return", Plain str_type) ];
     fn_call := fun _ => Return (VStr "stored") |}.

Definition uploads : obj :=
  resource "Uploads" (instance [("post", decorated None upload)]).

(** [async def get(self, name: str, limit: int = 10) -> str]. *)
Definition listing_get : function :=
  {| fn_coroutine := true;
     fn_signature := [ {| p_name := "name";
                          p_kind := POSITIONAL_OR_KEYWORD;
                          p_default := None |};
                       {| p_name := "limit";
                          p_kind := POSITIONAL_OR_KEYWORD;
                          p_default := Some (VInt 10) |} ];
     fn_hints := Return [ ("name", Plain str_type);
                          ("limit", Plain int_type);
                          ("return", Plain str_type) ];
     fn_call := fun kw => match lookup "limit" kw with
                          | Some VNone => Return (VStr "no limit")
                          | _ => Return (VStr "limited")
                          end |}.

Definition listing : obj :=
  resource "Listing" (instance [("get", decorated None listing_get)]).

(** [async def delete(self): pass]. *)
Definition silent : obj :=
  resource "Silent"
    (instance [("delete", decorated None (nullary None (Return VNone)))]).

Definition query_request (m p : string) (q : multidict) : Request :=
  {| request_message := {| headers := []; cookies := []; body := None |};
     method := m; path := p; version := "1.1"; query := q |}.

(** A requirement whose check fails for a reason of its own. *)
Definition unavailable : SecurityRequirement :=
  {| req_authorize := Raise (exn_msg RuntimeError "directory unreachable") |}.

(** [async def get(self) -> str], guarded by requirements that refuse. *)
Definition guarded : obj :=
  resource "Guarded"
    (instance [("get", decorated (Some [unauthenticated; unauthenticated'])
                         (nullary (Some (Plain str_type))
                                  (Return (VStr "secret"))))]).

(** A function that is not a coroutine function, and one that takes
    [*args]. *)
Definition plain_function : function :=
  {| fn_coroutine := false; fn_signature := [];
     fn_hints := Return []; fn_call := fun _ => Return VNone |}.

Definition variadic_function : function :=
  {| fn_coroutine := true;
     fn_signature := [ {| p_name := "args"; p_kind := VAR_POSITIONAL;
                          p_default := None |} ];
     fn_hints := Return []; fn_call := fun _ => Return VNone |}.

(** A container of containers, as in the tests:
    [container_resource({"c1": container_resource({"r2": R2()})})]. *)
Definition nested : obj :=
  container_resource
    [("c1", container_resource [("r2", leaf)] "Container")] "Container".

(** A resource with an inner resource declared by [@query]:
    [async def q1(self) -> str]. *)
Definition q1_function : function :=
  nullary (Some (Plain str_type)) (Return (VStr "i_am_r1")).

Definition outer_instance : obj := resource "R1" (instance []).

Definition q1 : obj :=
  match query_ None None q1_function outer_instance with
  | Return o => o
  | Raise _ => PyNone
  end.

Definition R1 : obj := resource "R1" (instance [("q1", q1)]).


Definition lets_through : filter :=
  Coroutine (fun request => (request, Return VNone)).

Definition fails_on_entry : filter :=
  Coroutine (fun request =>
    (request, Raise (exn_msg BadRequestError "malformed header"))).

Definition fails_on_resume : filter :=
  AsyncGen (fun request =>
    (request,
     Yield VNone (fun _ request' =>
       Resume request' (fun sent => sent)
         (Throw (exn_msg RuntimeError "cannot log response"))))).

(** A header scheme that knows one token. *)
Definition token_scheme : APIKeySecurityScheme :=
  HeaderSecurityScheme "token" "X-Token"
    (fun value => if String.eqb value "s3cret"
                  then Return (VStr "alice") else Return VNone).

Definition request_with_header (k v : string) : Request :=
  {| request_message := {| headers := [(k, v)]; cookies := [];
                           body := None |};
     method := "GET"; path := "/"; version := "1.1"; query := [] |}.

(** Stricter collaborators: an [int] is decoded from digits only (here,
    from [10]) and a string must not be empty. *)
Definition int_codec : Codec string found :=
  {| encode := fun v => Return "10";
     decode := fun x => match x with
                        | Text "10" => Return (VInt 10)
                        | Text _ => Raise (exn_msg ValueError
                                             "invalid literal for int()")
                        | Morsel _ _ => Raise (exn_msg TypeError
                                                 "expecting str")
                        end;
     codec_content_type := "text/plain; charset=UTF-8" |}.

Definition strict : Externals :=
  {| get_codec_String := fun h =>
       match h with
       | Plain t => if String.eqb (ty_name t) "int" then Return int_codec
                    else Return string_codec
       | Annotated _ _ => Return string_codec
       end;
     get_codec_Binary := fun _ => Return binary_codec;
     is_optional := fun _ => false;
     is_stream := fun _ => false;
     validate := fun v _ =>
       match v with
       | VStr EmptyString =>
           Raise (exn_msg ValueError "value shorter than minimum length")
       | _ => Return tt
       end;
     error_doc := fun _ => None;
     json_error := fun _ _ => [Byte.x7b; Byte.x7d] |}.

(** A hint with two sources: [Annotated[str, "note", InHeader("X-Name"),
    InQuery("name")]]. *)
Definition two_sources : hint :=
  Annotated str_type
    [AnnOther "note"; AnnParamIn (InHeader "X-Name");
     AnnParamIn (InQuery "name")].

(** A request whose body is a stream without content. *)
Definition empty_stream : Stream :=
  {| content_type := octet_stream; content_length := None;
     chunks := [[]; []] |}.

Definition request_with_body (m p : string) (s : Stream) : Request :=
  {| request_message := {| headers := []; cookies := []; body := Some s |};
     method := m; path := p; version := "1.1"; query := [] |}.

(** The code points of an ASCII string. *)
Definition of_ascii (s : string) : text :=
  map N_of_ascii (list_ascii_of_string s).

(** [str.capitalize] on ASCII letters. *)
Definition capitalize_ascii (s : text) : text :=
  of_ascii
    (match string_of_list_ascii (map ascii_of_N s) with
     | EmptyString => EmptyString
     | String c rest =>
         String (if andb (Nat.leb 97 (nat_of_ascii c))
                         (Nat.leb (nat_of_ascii c) 122)
                 then ascii_of_nat (nat_of_ascii c - 32) else c)
                (lower rest)
     end).

(** A docstring with a no-break space after the first word, and a line
    feed and an em space before the second sentence. *)
Definition docstring : text :=
  (of_ascii "Return" ++ [160%N] ++ of_ascii "the  item." ++ [10%N; 8195%N]
   ++ of_ascii "It must exist.")%list.

(** [async def stamps(request): response = yield;
    response.headers["X-Served"] = "1"]: a two-phase filter that changes
    the response it is sent and yields nothing more. *)
Definition stamps : filter :=
  AsyncGen (fun request =>
    (request,
     Yield VNone (fun _ request' =>
       Resume request' (fun sent => set_header sent "X-Served" "1") stop))).

(** A chain whose first filter changes the response that the second one
    has put in place of the handler's. *)
Definition stamped : Chain :=
  {| chain_filters := [stamps; replaces teapot; passes];
     chain_handler := answers |}.

(** [async def get(self, session: Annotated[str, InCookie("session")])
    -> str]. *)
Definition account_get : function :=
  {| fn_coroutine := true;
     fn_signature := [ {| p_name := "session";
                          p_kind := POSITIONAL_OR_KEYWORD;
                          p_default := None |} ];
     fn_hints := Return [ ("session",
                           Annotated str_type
                             [AnnParamIn (InCookie "session")]);
                          ("return", Plain str_type) ];
     fn_call := fun _ => Return (VStr "welcome") |}.

Definition account : obj :=
  resource "Account" (instance [("get", decorated None account_get)]).

Definition request_with_cookie (k v : string) : Request :=
  {| request_message := {| headers := []; cookies := [(k, v)];
                           body := None |};
     method := "GET"; path := "/"; version := "1.1"; query := [] |}.

(** A header scheme whose [authenticate] raises [StopAsyncIteration]. *)
Definition exhausted_scheme : APIKeySecurityScheme :=
  HeaderSecurityScheme "token" "X-Token"
    (fun _ => Raise (exn_new StopAsyncIteration)).

End Examples.

(** * Vocabulary of the statements *)

Module Spec.

Import Resource Http.

(** The world once [_handle] has stripped the mount prefix from the path
    of the request. *)
Definition stripped (self : Application) (w : world) : world :=
  {| w_request :=
       set_path (w_request w)
         (string_drop (String.length (app_path self)) (path (w_request w)));
     w_calls := w_calls w;
     w_log := w_log w |}.

(** The segments that [_handle] walks and the name of the operation that it
    looks up. *)
Definition segments_of (self : Application) (w : world) : list string :=
  path_segments (path (w_request (stripped self w))).

Definition operation_name (w : world) : string :=
  lower (method (w_request w)).

(** The request reaches a resource: the path starts with the mount prefix
    and every segment resolves. *)
Definition resolves_to (self : Application) (w : world) (resource : obj)
  : Prop :=
  startswith (path (w_request w)) (app_path self) = true
  /\ traverse (root self) (segments_of self w) = Return resource.

(** The world when the handler of the chain is entered. *)
Definition handled (w : world) : world :=
  {| w_request := w_request w;
     w_calls := (w_calls w ++ [Handled])%list;
     w_log := w_log w |}.

(** The world after the first step of filter number [i] has run and left
    the request as [r]. *)
Definition started (i : nat) (r : Request) (w : world) : world :=
  {| w_request := r;
     w_calls := (w_calls w ++ [Started i])%list;
     w_log := w_log w |}.

(** One resumption, as the call log shows it: the number of the filter,
    the response that was sent to it, and what came out. *)
Definition resumption : Type := nat * pyval * step unit.

Definition resumption_event (x : resumption) : event :=
  let '(i, fed, out) := x in Resumed i fed out.

Definition resumption_index (x : resumption) : nat := fst (fst x).

(** The current response after a resumption: the value yielded when there
    is one and it is true, the response that was sent otherwise. *)
Definition replaced (out : step unit) (current : pyval) : pyval :=
  match out with
  | Yield v _ => if truthy v then v else current
  | Throw _ => current
  end.

(** [resumes l request current xs request' final]: the resumptions [xs]
    are those of the generators of [l], in that order, each resumed once:
    each receives the current response, which starts as [current], and the
    request as the previous one left it, starting from [request]; what the
    log shows as its outcome is what the generator does then; the current
    response becomes the value it yields, when that value is true, and
    otherwise stays the object that was sent, as the generator left it.
    [request'] and [final] are the request and the current response at the
    end. *)
Fixpoint resumes (l : list (nat * suspended)) (request : Request)
    (current : pyval) (xs : list resumption) (request' : Request)
    (final : pyval) : Prop :=
  match l, xs with
  | [], [] => request' = request /\ final = current
  | (i, k) :: l', (j, fed, out) :: xs' =>
      j = i
      /\ fed = current
      /\ out = resumed_outcome (k current request)
      /\ resumes l' (resumed_request (k current request))
            (replaced out
               (sent_after current (resumed_edit (k current request))))
            xs' request' final
  | _, _ => False
  end.


(** The world when the operation is called with [params]. *)
Definition invoked (params : kwargs) (w : world) : world :=
  {| w_request := w_request w;
     w_calls := (w_calls w ++ [Invoked params])%list;
     w_log := w_log w |}.

(** [hints.get("return", type(None))]. *)
Definition return_hint_of (hints : list (string * hint)) : hint :=
  match lookup "return" hints with
  | Some h => h
  | None => Plain NoneType
  end.

(** The request resolves to an operation: the resource it reaches has,
    under the lowercased method, an operation whose type hints are
    [hints] and whose signature is [signature]. *)
Definition dispatches_to (self : Application) (w : world) (f : function)
    (hints : list (string * hint)) : Prop :=
  exists resource,
    resolves_to self w resource
    /\ is_operation (getattr resource (operation_name w)) = true
    /\ as_function (getattr resource (operation_name w)) = Return f
    /\ fn_hints f = Return hints.

(** A requirement that refuses with [UnauthorizedError]. *)
Definition refuses (r : SecurityRequirement) : Prop :=
  exists ex, req_authorize r = Raise ex
             /\ isinstance ex UnauthorizedError = true.

(** A parameter that is not variadic. *)
Definition named_parameter (p : Param) : Prop :=
  p_kind p <> VAR_POSITIONAL /\ p_kind p <> VAR_KEYWORD.

(** [entry_raises f r r' e]: entering filter [f] on request [r] raises
    [e] and leaves the request as [r'] (for a generator, an exception
    other than [StopAsyncIteration]). *)
Inductive entry_raises : filter -> Request -> Request -> exn -> Prop :=
| generator_raises first r r' e :
    first r = (r', Throw e) ->
    isinstance e StopAsyncIteration = false ->
    entry_raises (AsyncGen first) r r' e
| coroutine_raises run r r' e :
    run r = (r', Raise e) ->
    entry_raises (Coroutine run) r r' e
| call_raises call r r' e :
    call r = (r', Raise e) ->
    entry_raises (Neither call) r r' e.


(** A suspended generator that, when resumed, leaves the response that
    it is sent as it is, never yields a true value and never raises: it
    only observes the response. *)
Definition quiet (k : suspended) : Prop :=
  forall (v : pyval) (r : Request),
    (forall sent, resumed_edit (k v r) sent = sent)
    /\ match resumed_outcome (k v r) with
       | Yield x _ => truthy x = false
       | Throw e => isinstance e StopAsyncIteration = true
       end.

(** The names of the parameters that dispatch binds: the keys of the
    hints, without [return]. *)
Definition bound_names (hints : list (string * hint)) : list string :=
  List.filter (fun name => negb (String.eqb name "return")) (map fst hints).

(** A metadata argument that is not a parameter source. *)
Definition not_a_source (a : annotation) : Prop :=
  match a with
  | AnnOther _ => True
  | AnnParamIn _ => False
  end.

(** [c * n]: the string made of [n] times the character [c]. *)
Fixpoint copies (c : ascii) (n : nat) : string :=
  match n with
  | O => EmptyString
  | S n' => String c (copies c n')
  end.


End Spec.

(** * Properties *)

Import Resource Http Examples Spec.

Unset Implicit Arguments.

(** ** Authorization *)

Lemma resolve_ForbiddenException :
  resolve Resource.globals "ForbiddenException"
  = Raise (name_error "ForbiddenException").
Proof. reflexivity. Qed.

(** Once a requirement has failed with [ForbiddenError], [authorize] stops
    with [NameError], whatever was recorded before and whatever follows. *)
Lemma authorize_loop_forbidden (r : SecurityRequirement)
    (rest : list SecurityRequirement) (exception : option exn) (ex : exn) :
  req_authorize r = Raise ex ->
  isinstance ex ForbiddenError = true ->
  authorize_loop (r :: rest) exception
  = Raise (name_error "ForbiddenException").
Proof.
  intros Hr Hf. simpl. rewrite Hr, Hf. reflexivity.
Qed.

(** When every requirement fails with [UnauthorizedError], the first of
    these failures is raised again. *)
Lemma authorize_loop_unauthorized (security : list SecurityRequirement)
    (first : exn) :
  Forall (fun r => exists ex, req_authorize r = Raise ex
                   /\ isinstance ex UnauthorizedError = true) security ->
  authorize_loop security (Some first) = Raise first.
Proof.
  induction 1 as [| r rest [ex [Hr Hu]] _ IH]; simpl.
  - reflexivity.
  - rewrite Hr.
    destruct (isinstance ex ForbiddenError) eqn:Hf.
    + unfold isinstance in *. destruct (exn_cls ex); discriminate.
    + rewrite Hu. exact IH.
Qed.

Lemma authorize_only_unauthorized (r : SecurityRequirement)
    (rest : list SecurityRequirement) (ex : exn) :
  req_authorize r = Raise ex ->
  isinstance ex UnauthorizedError = true ->
  Forall (fun r => exists ex, req_authorize r = Raise ex
                   /\ isinstance ex UnauthorizedError = true) rest ->
  authorize (Some (r :: rest)) = Raise ex.
Proof.
  intros Hr Hu Hrest. unfold authorize. simpl. rewrite Hr.
  destruct (isinstance ex ForbiddenError) eqn:Hf.
  - unfold isinstance in *. destruct (exn_cls ex); discriminate.
  - rewrite Hu. apply authorize_loop_unauthorized. exact Hrest.
Qed.

(** A requirement that grants ends the loop: what failed before it is
    forgotten and what follows is not asked. *)
Lemma authorize_granted :
  authorize (Some [unauthenticated; grants; forbids]) = Return tt
  /\ authorize None = Return tt
  /\ authorize (Some []) = Return tt.
Proof. repeat split. Qed.

(** Whenever every requirement fails with one of the two security
    exceptions and at least one fails with [ForbiddenError], [authorize]
    raises [NameError]. *)
Lemma authorize_loop_any_forbidden (security : list SecurityRequirement) :
  Forall (fun r => exists ex, req_authorize r = Raise ex
                   /\ (isinstance ex ForbiddenError = true
                       \/ isinstance ex UnauthorizedError = true))
         security ->
  Exists (fun r => exists ex, req_authorize r = Raise ex
                   /\ isinstance ex ForbiddenError = true) security ->
  forall exception,
    authorize_loop security exception
    = Raise (name_error "ForbiddenException").
Proof.
  induction 1 as [| r rest [ex [Hr Hkind]] _ IH]; intros Hex exception.
  - inversion Hex.
  - destruct (isinstance ex ForbiddenError) eqn:Hf.
    + apply (authorize_loop_forbidden r rest exception ex Hr Hf).
    + destruct Hkind as [Hk | Hu]; [congruence |].
      assert (Hrest : Exists (fun r => exists ex, req_authorize r = Raise ex
                         /\ isinstance ex ForbiddenError = true) rest).
      { inversion Hex as [? ? [ex' [Hr' Hf']] | ? ? Ht]; subst.
        - rewrite Hr in Hr'. inversion Hr'; subst ex'. congruence.
        - exact Ht. }
      simpl. rewrite Hr, Hf, Hu.
      destruct exception; apply (IH Hrest).
Qed.

(** C1.  With one requirement that fails with [ForbiddenError] and one that
    fails with [UnauthorizedError], in either order, [authorize] raises
    neither of the two failures: the test [isinstance(exception,
    ForbiddenException)] names a class that the module does not define, so
    the handler of [ForbiddenError] stops with [NameError].  With
    [UnauthorizedError] failures only, the first one is raised again. *)
Theorem authorize_forbidden_raises_NameError :
  authorize (Some [forbids; unauthenticated])
  = Raise (name_error "ForbiddenException")
  /\ authorize (Some [unauthenticated; forbids])
     = Raise (name_error "ForbiddenException")
  /\ authorize (Some [unauthenticated; unauthenticated'])
     = Raise (exn_msg UnauthorizedError "who are you").
Proof.
  repeat split; reflexivity.
Qed.

(** ** Traversal *)

Lemma resolve_is_coroutine_function :
  resolve Http.globals "is_coroutine_function"
  = Raise (name_error "is_coroutine_function").
Proof. reflexivity. Qed.

(** Whenever [_subordinate] reaches the call of a callable attribute (the
    attribute is not a resource, is callable, and its declared return type
    is a resource), it stops with [NameError] before calling it. *)
Lemma subordinate_callable_NameError (resource : obj) (segment : string)
    ga gi (f : function) (called : result obj) hints :
  getattr resource segment = PyObject ga gi (Some (f, called)) ->
  is_resource (getattr resource segment) = false ->
  get_type_hints f = Return hints ->
  is_resource_type (lookup "return" hints) = true ->
  _subordinate resource segment
  = Raise (name_error "is_coroutine_function").
Proof.
  intros Hattr Hres Hhints Hret. unfold _subordinate.
  rewrite Hres. rewrite Hattr. simpl. rewrite Hhints. simpl.
  rewrite Hret. reflexivity.
Qed.

(** C2.  [parent.child] is callable, is not a resource, and declares a
    resource as its return type, and calling it would give the resource
    [leaf]; [_subordinate] does not call it and does not descend: the test
    [is_coroutine_function(attr)] names a function that the module neither
    defines nor imports, so traversal stops with [NameError]. *)
Theorem subordinate_callable_not_invoked :
  callable (getattr parent "child") = true
  /\ is_resource (getattr parent "child") = false
  /\ (exists f, as_function (getattr parent "child") = Return f
                /\ get_type_hints f = Return [("return", Inner_type)])
  /\ is_resource_type (Some Inner_type) = true
  /\ _subordinate parent "child"
     = Raise (name_error "is_coroutine_function")
  /\ traverse parent (path_segments "child")
     = Raise (name_error "is_coroutine_function").
Proof.
  repeat split; try reflexivity.
  eexists. split; reflexivity.
Qed.

Lemma traverse_app (resource : obj) (before after : list string) :
  traverse resource (before ++ after)
  = (r <- traverse resource before ;; traverse r after)%result.
Proof.
  revert resource. induction before as [| s before IH]; intros resource.
  - reflexivity.
  - simpl. destruct (_subordinate resource s) as [r | e]; simpl.
    + apply IH.
    + reflexivity.
Qed.

(** What [_subordinate] does when the resource has no attribute named after
    the segment: it is decided by [resource[segment]] alone. *)
Lemma subordinate_item (resource : obj) (segment : string) :
  is_None (getattr resource segment) = true ->
  _subordinate resource segment
  = match getitem resource segment with
    | Raise e => if isinstance e TypeError
                 then Raise (exn_new NotFoundError) else Raise e
    | Return item => if is_resource item then Return item
                     else Raise (exn_new NotFoundError)
    end.
Proof.
  intros Habs. unfold _subordinate. rewrite Habs. simpl.
  destruct (getitem resource segment) as [item | e].
  - destruct (is_resource item); reflexivity.
  - reflexivity.
Qed.

(** C3, as stated, fails: the catalog keeps its items in a dictionary and
    has no attribute [42]; the lookup of the missing key [42] raises
    [KeyError], which [_subordinate] does not catch, so traversal fails
    with [KeyError] and not with [NotFoundError]. *)
Lemma item_lookup_missing_key_not_NotFound :
  is_None (getattr catalog "42") = true
  /\ getitem catalog "42" = Raise (exn_msg KeyError "42")
  /\ _subordinate catalog "42" = Raise (exn_msg KeyError "42")
  /\ traverse catalog (path_segments "42") = Raise (exn_msg KeyError "42")
  /\ ~ (exists e, _subordinate catalog "42" = Raise e
                  /\ isinstance e NotFoundError = true).
Proof.
  repeat split; try reflexivity.
  intros [e [H Hnf]]. vm_compute in H. inversion H; subst e.
  vm_compute in Hnf. discriminate.
Qed.

(** When traversal reaches a resource that has no attribute named after
    the next segment, the outcome of the indexed lookup decides: [TypeError]
    and a result that is not a resource become [NotFoundError], any other
    exception goes through. *)
Lemma traverse_item_lookup (root_ resource : obj)
    (before after : list string) (segment : string) :
  traverse root_ before = Return resource ->
  is_None (getattr resource segment) = true ->
  (forall e, getitem resource segment = Raise e ->
     traverse root_ (before ++ segment :: after)
     = Raise (if isinstance e TypeError then exn_new NotFoundError else e))
  /\ (forall item, getitem resource segment = Return item ->
        is_resource item = false ->
        traverse root_ (before ++ segment :: after)
        = Raise (exn_new NotFoundError)).
Proof.
  intros Hbefore Habs.
  assert (Hstep : traverse root_ (before ++ segment :: after)
                  = (r <- _subordinate resource segment ;;
                     traverse r after)%result).
  { rewrite traverse_app, Hbefore. reflexivity. }
  rewrite Hstep, (subordinate_item _ _ Habs). split.
  - intros e He. rewrite He.
    destruct (isinstance e TypeError); reflexivity.
  - intros item Hitem Hres. rewrite Hitem, Hres. reflexivity.
Qed.

(** ** Dispatch *)

(** [_handle] up to the end of traversal. *)
Lemma handle_traverse_raise (ext : Externals) (self : Application)
    (w : world) (e : exn) :
  startswith (path (w_request w)) (app_path self) = true ->
  traverse (root self) (segments_of self w) = Raise e ->
  _handle ext self w = (stripped self w, Raise e).
Proof.
  intros Hpre Htr. unfold _handle, bind, get_request, set_request, lift.
  rewrite Hpre. simpl.
  unfold segments_of, stripped in Htr. simpl in Htr. rewrite Htr.
  reflexivity.
Qed.

Lemma handle_no_operation (ext : Externals) (self : Application)
    (w : world) (resource : obj) :
  resolves_to self w resource ->
  is_operation (getattr resource (operation_name w)) = false ->
  _handle ext self w = (stripped self w, Raise (exn_new MethodNotAllowedError)).
Proof.
  intros [Hpre Htr] Hop.
  unfold _handle, bind, get_request, set_request, lift, raise.
  rewrite Hpre. simpl.
  unfold segments_of, stripped in Htr. simpl in Htr. rewrite Htr.
  unfold operation_name in Hop. rewrite Hop. reflexivity.
Qed.

(** C3, amended.  When a path segment is resolved by indexed lookup (the
    current resource has no attribute of that name), a lookup that raises
    [TypeError] (the key does not fit, or the resource is not
    subscriptable) or that returns something that is not a resource makes
    dispatch fail with [NotFoundError]; any other exception raised by the
    lookup, such as [KeyError] or [IndexError] for a key out of range, is
    raised by dispatch as it is. *)
Theorem dispatch_item_lookup (ext : Externals) (self : Application)
    (w : world) (resource : obj) (before after : list string)
    (segment : string) :
  startswith (path (w_request w)) (app_path self) = true ->
  segments_of self w = (before ++ segment :: after)%list ->
  traverse (root self) before = Return resource ->
  is_None (getattr resource segment) = true ->
  (forall e, getitem resource segment = Raise e ->
     snd (_handle ext self w)
     = Raise (if isinstance e TypeError then exn_new NotFoundError else e))
  /\ (forall item, getitem resource segment = Return item ->
        is_resource item = false ->
        snd (_handle ext self w) = Raise (exn_new NotFoundError)).
Proof.
  intros Hpre Hseg Hbefore Habs.
  destruct (@traverse_item_lookup (root self) resource before after segment
              Hbefore Habs) as [Hraise Hitem].
  split.
  - intros e He.
    rewrite (@handle_traverse_raise ext self w
               (if isinstance e TypeError then exn_new NotFoundError else e));
      [reflexivity | exact Hpre |].
    rewrite Hseg. apply Hraise. exact He.
  - intros item Hi Hres.
    rewrite (@handle_traverse_raise ext self w (exn_new NotFoundError));
      [reflexivity | exact Hpre |].
    rewrite Hseg. apply (Hitem item); assumption.
Qed.

Lemma dispatch_item_lookup_witness :
  snd (_handle ext0 (app_of catalog) (initial (request_for "GET" "/42")))
  = Raise (exn_msg KeyError "42")
  /\ snd (_handle ext0 (app_of catalog) (initial (request_for "GET" "/1/2")))
     = Raise (exn_new NotFoundError).
Proof.
  split.
  - exact (proj1 (@dispatch_item_lookup ext0 (app_of catalog)
                    (initial (request_for "GET" "/42")) catalog [] [] "42"
                    eq_refl eq_refl eq_refl eq_refl)
                 (exn_msg KeyError "42") eq_refl).
  - exact (proj1 (@dispatch_item_lookup ext0 (app_of catalog)
                    (initial (request_for "GET" "/1/2")) leaf ["1"] [] "2"
                    eq_refl eq_refl eq_refl eq_refl)
                 (exn_msg TypeError "object is not subscriptable") eq_refl).
Defined.

(** C5.  When the path of the request resolves to a resource and that
    resource has no operation named after the lowercased method (no
    attribute of that name, or an attribute that is not an operation),
    dispatch fails with [MethodNotAllowedError], which is not
    [NotFoundError]. *)
Theorem no_operation_MethodNotAllowed (ext : Externals) (self : Application)
    (w : world) (resource : obj) :
  resolves_to self w resource ->
  getattr resource (operation_name w) = PyNone
  \/ is_operation (getattr resource (operation_name w)) = false ->
  snd (_handle ext self w) = Raise (exn_new MethodNotAllowedError)
  /\ isinstance (exn_new MethodNotAllowedError) NotFoundError = false.
Proof.
  intros Hres Hop. split; [| reflexivity].
  rewrite (@handle_no_operation ext self w resource Hres); [reflexivity |].
  destruct Hop as [Hnone | Hop]; [rewrite Hnone; reflexivity | exact Hop].
Qed.

Lemma no_operation_MethodNotAllowed_witness :
  resolves_to (app_of catalog) (initial (request_for "POST" "/1")) leaf
  /\ getattr leaf "post" = PyNone
  /\ snd (_handle ext0 (app_of catalog) (initial (request_for "POST" "/1")))
     = Raise (exn_new MethodNotAllowedError).
Proof.
  assert (H : resolves_to (app_of catalog)
                (initial (request_for "POST" "/1")) leaf)
    by (split; reflexivity).
  split; [exact H | split; [reflexivity |]].
  exact (proj1 (@no_operation_MethodNotAllowed ext0 (app_of catalog)
                  (initial (request_for "POST" "/1")) leaf H
                  (or_introl eq_refl))).
Defined.

(** ** The application shell *)

(** An exception outside the taxonomy that carries a message is wrapped,
    logged and handed to the error handler. *)
Lemma handle_wraps (ext : Externals) (self : Application) (w w' : world)
    (ex : exn) (msg : string) (rest : list string) :
  Chain_handle {| chain_filters := filters self;
                  chain_handler := _handle ext self |} w = (w', Raise ex) ->
  is_Error ex = false ->
  is_Exception ex = true ->
  exn_args ex = msg :: rest ->
  handle ext self w
  = ({| w_request := w_request w'; w_calls := w_calls w';
        w_log := (w_log w' ++ [LogError msg ex])%list |},
     error_handler self (exn_from InternalServerError ex)).
Proof.
  intros Hc He Hx Ha. unfold handle. rewrite Hc, He, Hx. simpl.
  unfold bind, logger_error, lift. simpl. rewrite Ha. reflexivity.
Qed.

(** An exception outside the taxonomy that carries no argument escapes
    from [handle] as an [IndexError]: the error handler is not called and
    nothing is logged. *)
Lemma handle_escapes (ext : Externals) (self : Application) (w w' : world)
    (ex : exn) :
  Chain_handle {| chain_filters := filters self;
                  chain_handler := _handle ext self |} w = (w', Raise ex) ->
  is_Error ex = false ->
  is_Exception ex = true ->
  exn_args ex = [] ->
  handle ext self w = (w', Raise (exn_msg IndexError "tuple index out of range")).
Proof.
  intros Hc He Hx Ha. unfold handle. rewrite Hc, He, Hx. simpl.
  unfold bind, raise. simpl. rewrite Ha. reflexivity.
Qed.

(** C4.  The operation of [unfinished] raises [NotImplementedError()], an
    exception outside the taxonomy, without arguments.  [handle] wraps it,
    but the message of the log record is taken as the first argument of
    the cause, which has none: [handle] raises [IndexError], nothing is
    logged and the error handler is not called.  With a cause that carries
    a message ([failing]), the error is logged and the answer of the error
    handler, with status 500, is returned. *)
Theorem handle_lets_IndexError_escape :
  (let out := handle ext0 (app_of unfinished)
                (initial (request_for "GET" "/")) in
   snd out = Raise (exn_msg IndexError "tuple index out of range")
   /\ w_log (fst out) = [])
  /\ (let out := handle ext0 (app_of failing)
                   (initial (request_for "GET" "/")) in
      w_log (fst out)
      = [LogError "disk full" (exn_msg RuntimeError "disk full")]
      /\ exists response, snd out = Return (VResponse response)
                          /\ status response = 500).
Proof.
  split.
  - split; reflexivity.
  - split; [reflexivity |]. eexists. split; reflexivity.
Qed.

(** ** The filter chain *)

(** The second loop: what it adds to the call log.  The resumptions follow
    the list it is given; when it returns, it went through the whole list,
    and every entry is what the generator of that position did when it was
    sent the current response, as [resumes] says. *)
Lemma backward_log (l : list (nat * suspended)) :
  forall (response : pyval) (w : world),
  exists xs : list resumption,
    w_calls (fst (backward l response w))
    = (w_calls w ++ map resumption_event xs)%list
    /\ (exists n, map resumption_index xs = firstn n (map fst l))
    /\ (forall final, snd (backward l response w) = Return final ->
          map resumption_index xs = map fst l
          /\ resumes l (w_request w) response xs
               (w_request (fst (backward l response w))) final).
Proof.
  induction l as [| [i k] rest IH]; intros response w.
  - exists []. simpl. rewrite app_nil_r. split; [reflexivity | split].
    + exists 0%nat. reflexivity.
    + intros final H. inversion H. repeat split.
  - simpl. destruct (k response (w_request w)) as [r ed s] eqn:Hk. simpl.
    destruct s as [v u | e].
    + destruct (IH (if truthy v then v else sent_after response ed)
                   {| w_request := r;
                      w_calls := (w_calls w ++ [Resumed i response (Yield v u)])%list;
                      w_log := w_log w |}) as [xs [Hcalls [[n Hn] Hret]]].
      exists ((i, response, Yield v u) :: xs). split; [| split].
      * rewrite Hcalls. simpl. rewrite <- app_assoc. reflexivity.
      * exists (S n). simpl. unfold resumption_index at 1. simpl.
        rewrite Hn. reflexivity.
      * intros final Hfinal. destruct (Hret final Hfinal) as [Hidx Hres].
        split.
        -- simpl. unfold resumption_index at 1. simpl. rewrite Hidx.
           reflexivity.
        -- simpl.
           split; [reflexivity | split; [reflexivity | split; [reflexivity |]]].
           exact Hres.
    + destruct (isinstance e StopAsyncIteration) eqn:Hstop.
      * destruct (IH (sent_after response ed)
                   {| w_request := r;
                      w_calls := (w_calls w ++ [Resumed i response (Throw e)])%list;
                      w_log := w_log w |}) as [xs [Hcalls [[n Hn] Hret]]].
        exists ((i, response, Throw e) :: xs). split; [| split].
        -- rewrite Hcalls. simpl. rewrite <- app_assoc. reflexivity.
        -- exists (S n). simpl. unfold resumption_index at 1. simpl.
           rewrite Hn. reflexivity.
        -- intros final Hfinal.
           destruct (Hret final Hfinal) as [Hidx Hres]. split.
           ++ simpl. unfold resumption_index at 1. simpl. rewrite Hidx.
              reflexivity.
           ++ simpl.
              split; [reflexivity | split; [reflexivity | split; [reflexivity |]]].
              exact Hres.
      * exists [(i, response, Throw e)]. simpl. split; [| split].
        -- reflexivity.
        -- exists 1%nat. reflexivity.
        -- intros final Hfinal. discriminate.
Qed.


(** The first loop adds only [Started] entries to the call log, for
    filters of the part of the chain it walks. *)
Lemma forward_log (fs : list filter) :
  forall (i : nat) (rewind : list (nat * suspended)) (response : pyval)
         (w : world),
  exists l : list nat,
    w_calls (fst (forward i fs rewind response w))
    = (w_calls w ++ map Started l)%list.
Proof.
  induction fs as [| f rest IH]; intros i rewind response w.
  - exists []. simpl. rewrite app_nil_r. reflexivity.
  - destruct f as [first | run | call]; simpl.
    + destruct (first (w_request w)) as [r s]. destruct s as [v k | e].
      * destruct (truthy v).
        -- exists [i]. reflexivity.
        -- destruct (IH (S i) (rewind ++ [(i, k)])%list v
                        {| w_request := r;
                           w_calls := (w_calls w ++ [Started i])%list;
                           w_log := w_log w |}) as [l Hl].
           exists (i :: l). rewrite Hl. simpl. rewrite <- app_assoc.
           reflexivity.
      * destruct (isinstance e StopAsyncIteration).
        -- destruct (IH (S i) rewind response
                        {| w_request := r;
                           w_calls := (w_calls w ++ [Started i])%list;
                           w_log := w_log w |}) as [l Hl].
           exists (i :: l). rewrite Hl. simpl. rewrite <- app_assoc.
           reflexivity.
        -- exists [i]. reflexivity.
    + destruct (run (w_request w)) as [r a]. destruct a as [v | e].
      * destruct (truthy v).
        -- exists [i]. reflexivity.
        -- destruct (IH (S i) rewind v
                        {| w_request := r;
                           w_calls := (w_calls w ++ [Started i])%list;
                           w_log := w_log w |}) as [l Hl].
           exists (i :: l). rewrite Hl. simpl. rewrite <- app_assoc.
           reflexivity.
      * exists [i]. reflexivity.
    + destruct (call (w_request w)) as [r a]. destruct a as [u | e].
      * destruct (IH (S i) rewind response
                     {| w_request := r; w_calls := w_calls w;
                        w_log := w_log w |}) as [l Hl].
        exists l. rewrite Hl. reflexivity.
      * exists []. simpl. rewrite app_nil_r. reflexivity.
Qed.

(** The first loop only appends to the rewind list, generators of the
    filters it walks, at most one per filter; when it ends on a true
    response (a [break]), at least one filter was not appended. *)
Lemma forward_shape (fs : list filter) :
  forall (i : nat) (rewind : list (nat * suspended)) (response : pyval)
         (w w' : world) (rewind' : list (nat * suspended))
         (response' : pyval),
  forward i fs rewind response w = (w', Return (rewind', response')) ->
  truthy response = false ->
  exists added,
    rewind' = (rewind ++ added)%list
    /\ Forall (fun ik => (i <= fst ik < i + List.length fs)%nat) added
    /\ (List.length added <= List.length fs)%nat
    /\ (truthy response' = true ->
        (List.length added < List.length fs)%nat).
Proof.
  induction fs as [| f rest IH];
    intros i rewind response w w' rewind' response' Hf Hfalsy.
  - simpl in Hf. inversion Hf; subst. exists []. rewrite app_nil_r.
    repeat split; auto. intros Ht. congruence.
  - destruct f as [first | run | call]; simpl in Hf.
    + destruct (first (w_request w)) as [r s]. destruct s as [v k | e].
      * destruct (truthy v) eqn:Hv.
        -- inversion Hf; subst. exists []. rewrite app_nil_r.
           repeat split; auto; simpl; lia.
        -- destruct (IH _ _ _ _ _ _ _ Hf Hv)
             as [added [Hrw [Hall [Hlen Hbreak]]]].
           exists ((i, k) :: added). repeat split.
           ++ rewrite Hrw, <- app_assoc. reflexivity.
           ++ constructor; [simpl; lia |].
              eapply Forall_impl; [| exact Hall]. simpl. intros; lia.
           ++ simpl. lia.
           ++ intros Ht. specialize (Hbreak Ht). simpl. lia.
      * destruct (isinstance e StopAsyncIteration); [| discriminate].
        destruct (IH _ _ _ _ _ _ _ Hf Hfalsy)
          as [added [Hrw [Hall [Hlen Hbreak]]]].
        exists added. repeat split; auto.
        -- eapply Forall_impl; [| exact Hall]. simpl. intros; lia.
        -- simpl. lia.
        -- intros Ht. specialize (Hbreak Ht). simpl. lia.
    + destruct (run (w_request w)) as [r a].
      destruct a as [v | e]; [| discriminate].
      destruct (truthy v) eqn:Hv.
      * inversion Hf; subst. exists []. rewrite app_nil_r.
        repeat split; auto; simpl; lia.
      * destruct (IH _ _ _ _ _ _ _ Hf Hv)
          as [added [Hrw [Hall [Hlen Hbreak]]]].
        exists added. repeat split; auto.
        -- eapply Forall_impl; [| exact Hall]. simpl. intros; lia.
        -- simpl. lia.
        -- intros Ht. specialize (Hbreak Ht). simpl. lia.
    + destruct (call (w_request w)) as [r a].
      destruct a as [u | e]; [| discriminate].
      destruct (IH _ _ _ _ _ _ _ Hf Hfalsy)
        as [added [Hrw [Hall [Hlen Hbreak]]]].
      exists added. repeat split; auto.
      * eapply Forall_impl; [| exact Hall]. simpl. intros; lia.
      * simpl. lia.
      * intros Ht. specialize (Hbreak Ht). simpl. lia.
Qed.


(** The first loop over a chain cut in two: when the loop over the first
    part ends without [break], the loop goes on with the second part. *)
Lemma forward_app (before after : list filter) :
  forall (i : nat) (rewind : list (nat * suspended)) (response : pyval)
         (w w1 : world) (rewind1 : list (nat * suspended))
         (response1 : pyval),
  forward i before rewind response w = (w1, Return (rewind1, response1)) ->
  truthy response1 = false ->
  forward i (before ++ after) rewind response w
  = forward (i + List.length before) after rewind1 response1 w1.
Proof.
  induction before as [| f rest IH];
    intros i rewind response w w1 rewind1 response1 Hf Hfalsy.
  - simpl in Hf. inversion Hf; subst. simpl. rewrite Nat.add_0_r.
    reflexivity.
  - replace (i + List.length (f :: rest))%nat
      with (S i + List.length rest)%nat by (simpl; lia).
    destruct f as [first | run | call]; simpl in Hf |- *.
    + destruct (first (w_request w)) as [r s]. destruct s as [v k | e].
      * destruct (truthy v) eqn:Hv.
        -- inversion Hf; subst. congruence.
        -- apply (IH _ _ _ _ _ _ _ Hf Hfalsy).
      * destruct (isinstance e StopAsyncIteration); [| discriminate].
        apply (IH _ _ _ _ _ _ _ Hf Hfalsy).
    + destruct (run (w_request w)) as [r a].
      destruct a as [v | e]; [| discriminate].
      destruct (truthy v) eqn:Hv.
      * inversion Hf; subst. congruence.
      * apply (IH _ _ _ _ _ _ _ Hf Hfalsy).
    + destruct (call (w_request w)) as [r a].
      destruct a as [u | e]; [| discriminate].
      apply (IH _ _ _ _ _ _ _ Hf Hfalsy).
Qed.

(** The chain [three] on a request: every filter is entered, the handler
    answers, and the filters are resumed from the last to the first; the
    second one replaces the response, which the first one receives. *)
Lemma three_runs :
  let out := Chain_handle three (initial (request_for "GET" "/")) in
  snd out = Return (VResponse teapot)
  /\ w_calls (fst out)
     = [ Started 0; Started 1; Started 2; Handled;
         Resumed 2 (VResponse Response_new) stop;
         Resumed 1 (VResponse Response_new) (Yield (VResponse teapot) tt);
         Resumed 0 (VResponse teapot) stop ].
Proof. split; reflexivity. Qed.

(** The chain [stamped]: the first filter, resumed last, receives the
    response that the second one put in place and changes it; the chain
    returns the changed response. *)
Lemma stamped_runs :
  let out := Chain_handle stamped (initial (request_for "GET" "/")) in
  snd out = Return (VResponse (set_header teapot "X-Served" "1"))
  /\ w_calls (fst out)
     = [ Started 0; Started 1; Started 2; Handled;
         Resumed 2 (VResponse Response_new) stop;
         Resumed 1 (VResponse Response_new) (Yield (VResponse teapot) tt);
         Resumed 0 (VResponse teapot) stop ].
Proof. split; reflexivity. Qed.

(** The chain [interrupted]: the second filter answers at once; the third
    filter and the handler are not reached, and only the first filter is
    resumed. *)
Lemma interrupted_runs :
  let out := Chain_handle interrupted (initial (request_for "GET" "/")) in
  snd out = Return (VResponse teapot)
  /\ w_calls (fst out)
     = [ Started 0; Started 1;
         Resumed 0 (VResponse busy) (Yield (VResponse teapot) tt) ].
Proof. split; reflexivity. Qed.

(** [GET /] on [leaf], through [handle]: status 200, the encoded body and
    its headers. *)
Lemma leaf_get :
  snd (handle ext0 (app_of leaf) (initial (request_for "GET" "/")))
  = Return (VResponse
      {| response_message :=
           {| headers := [("Content-Type", "application/json");
                          ("Content-Length", "1")];
              cookies := [];
              body := Some (BytesStream [Byte.x6f] "application/json") |};
         status := 200 |}).
Proof. reflexivity. Qed.

Lemma In_firstn (A : Type) (x : A) (n : nat) (l : list A) :
  In x (firstn n l) -> In x l.
Proof.
  intros H. rewrite <- (firstn_skipn n l). apply in_or_app. left. exact H.
Qed.



(** C7.  When the filters before a two-phase filter have all let the
    request through, leaving [rewind] as the rewind list, and that filter
    yields a true value [v] on entry, the first loop ends there with the
    same rewind list, which does not hold the filter; the chain goes on
    resuming the generators of [rewind], most recent first, starting from
    [v]; the call log of the whole run shows no resumption of the filter
    and no call of the handler. *)
Theorem short_circuit_never_resumed (before after : list filter)
    (first : Request -> Request * step suspended) (handler : M pyval)
    (request request2 : Request) (w1 : world)
    (rewind : list (nat * suspended)) (response v : pyval) (k : suspended) :
  forward 0 before [] VNone (initial request)
  = (w1, Return (rewind, response)) ->
  truthy response = false ->
  first (w_request w1) = (request2, Yield v k) ->
  truthy v = true ->
  let c := {| chain_filters := (before ++ AsyncGen first :: after)%list;
              chain_handler := handler |} in
  let n := List.length before in
  forward 0 (chain_filters c) [] VNone (initial request)
  = (started n request2 w1, Return (rewind, v))
  /\ ~ In n (map fst rewind)
  /\ Chain_handle c (initial request)
     = backward (rev rewind) v (started n request2 w1)
  /\ (forall fed out,
        ~ In (Resumed n fed out)
             (w_calls (fst (Chain_handle c (initial request)))))
  /\ ~ In Handled (w_calls (fst (Chain_handle c (initial request)))).
Proof.
  intros Hbefore Hfalsy Hfirst Hv c n.
  assert (Hfwd : forward 0 (chain_filters c) [] VNone (initial request)
                 = (started n request2 w1, Return (rewind, v))).
  { unfold c. simpl chain_filters.
    rewrite (@forward_app before (AsyncGen first :: after) _ _ _ _ _ _ _
               Hbefore Hfalsy).
    simpl. rewrite Hfirst, Hv. reflexivity. }
  assert (Hnot : ~ In n (map fst rewind)).
  { destruct (@forward_shape _ _ _ _ _ _ _ _ Hbefore eq_refl)
      as [added [Hrw [Hall _]]].
    simpl in Hrw. subst added. intros Hin.
    apply in_map_iff in Hin. destruct Hin as [ik [Heq Hin]].
    rewrite Forall_forall in Hall. specialize (Hall ik Hin).
    unfold n in Heq. lia. }
  assert (Hrun : Chain_handle c (initial request)
                 = backward (rev rewind) v (started n request2 w1)).
  { unfold Chain_handle, bind. rewrite Hfwd. simpl. rewrite Hv.
    reflexivity. }
  assert (Hlog : exists (l : list nat) (xs : list resumption),
             w_calls (fst (Chain_handle c (initial request)))
             = ((map Started l ++ [Started n])
                ++ map resumption_event xs)%list
             /\ exists m, map resumption_index xs
                          = firstn m (map fst (rev rewind))).
  { destruct (forward_log before 0 [] VNone (initial request)) as [l Hl].
    rewrite Hbefore in Hl. simpl in Hl.
    destruct (backward_log (rev rewind) v (started n request2 w1))
      as [xs [Hcalls [Hidx _]]].
    exists l, xs. split; [| exact Hidx].
    rewrite Hrun, Hcalls. simpl. rewrite Hl. reflexivity. }
  destruct Hlog as [l [xs [Hcalls [m Hidx]]]].
  repeat split; try assumption.
  - intros fed out Hin. rewrite Hcalls in Hin.
    apply in_app_or in Hin. destruct Hin as [Hin | Hin].
    + apply in_app_or in Hin. destruct Hin as [Hin | [Hin | []]].
      * apply in_map_iff in Hin. destruct Hin as [j [Hj _]]. discriminate.
      * discriminate.
    + apply in_map_iff in Hin. destruct Hin as [[[j fed'] out'] [Hj Hin]].
      simpl in Hj. inversion Hj; subst j fed' out'.
      apply Hnot.
      assert (Hm : In n (map resumption_index xs)).
      { apply in_map_iff. exists (n, fed, out). split; [reflexivity | exact Hin]. }
      rewrite Hidx in Hm. apply In_firstn in Hm.
      rewrite map_rev in Hm. apply in_rev in Hm. exact Hm.
  - intros Hin. rewrite Hcalls in Hin.
    apply in_app_or in Hin. destruct Hin as [Hin | Hin].
    + apply in_app_or in Hin. destruct Hin as [Hin | [Hin | []]].
      * apply in_map_iff in Hin. destruct Hin as [j [Hj _]]. discriminate.
      * discriminate.
    + apply in_map_iff in Hin. destruct Hin as [[[j fed'] out'] [Hj _]].
      discriminate.
Qed.

Lemma short_circuit_never_resumed_witness :
  forward 0 (chain_filters interrupted) [] VNone
          (initial (request_for "GET" "/"))
  = (started 1 (request_for "GET" "/")
       (started 0 (request_for "GET" "/") (initial (request_for "GET" "/"))),
     Return ([(0%nat, fun _ request' =>
                        Resume request' (fun sent => sent)
                               (Yield (VResponse teapot) tt))],
             VResponse busy))
  /\ (forall fed out,
        ~ In (Resumed 1 fed out)
             (w_calls (fst (Chain_handle interrupted
                              (initial (request_for "GET" "/"))))))
  /\ ~ In Handled
          (w_calls (fst (Chain_handle interrupted
                           (initial (request_for "GET" "/"))))).
Proof.
  pose proof (@short_circuit_never_resumed [replaces teapot] [passes]
                (fun request =>
                   (request,
                    Yield (VResponse busy) observer))
                answers (request_for "GET" "/") (request_for "GET" "/")
                _ _ _ _ _ eq_refl eq_refl eq_refl eq_refl) as H.
  simpl in H. destruct H as [H1 [_ [_ [H4 H5]]]].
  split; [exact H1 | split; [exact H4 | exact H5]].
Defined.

(** ** Parameter binding *)

Lemma ParamIn_get_calls (ext : Externals) (in_param : ParamIn) (h : hint)
    (w : world) :
  w_calls (fst (ParamIn_get ext in_param h w)) = w_calls w
  /\ w_log (fst (ParamIn_get ext in_param h w)) = w_log w.
Proof.
  destruct in_param as [attr key description |]; simpl.
  - split; reflexivity.
  - unfold on_request. destruct (_InBody_get ext _InBody h (w_request w)).
    split; reflexivity.
Qed.

Lemma bind_param_calls (ext : Externals) (signature : list Param)
    (name : string) (h : hint) (w : world) :
  w_calls (fst (bind_param ext signature name h w)) = w_calls w.
Proof.
  unfold bind_param. destruct (param_source name h) as [h' in_param].
  unfold bind.
  pose proof (ParamIn_get_calls ext in_param h' w) as [Hc _].
  destruct (ParamIn_get ext in_param h' w) as [w1 [param | e]];
    simpl in Hc; [| exact Hc].
  assert (Hvalid : forall v,
    w_calls (fst (match lift (except_TypeError_ValueError
                                (validate ext v h')
                                (fun tve => exn_msg BadRequestError
                                   (exn_str tve ++ " in "
                                    ++ ParamIn_str in_param))) w1 with
                  | (w', Return a) => ret v w'
                  | (w', Raise e) => (w', Raise e)
                  end)) = w_calls w).
  { intros v. unfold lift.
    destruct (except_TypeError_ValueError _ _); simpl; exact Hc. }
  destruct param; try apply Hvalid.
  unfold lift.
  destruct (parameters_get name signature) as [p | e]; simpl; [| exact Hc].
  destruct (p_default p); simpl; [exact Hc |].
  destruct (is_optional ext h'); simpl; exact Hc.
Qed.

(** Binding parameters adds nothing to the call log: the operation is not
    called while its parameters are being bound. *)
Lemma bind_params_calls (ext : Externals) (signature : list Param)
    (hints : list (string * hint)) :
  forall (params : kwargs) (w : world),
    w_calls (fst (bind_params ext signature hints params w)) = w_calls w.
Proof.
  induction hints as [| [name h] rest IH]; intros params w.
  - reflexivity.
  - simpl. destruct (String.eqb name "return").
    + apply IH.
    + unfold bind.
      pose proof (bind_param_calls ext signature name h w) as Hc.
      destruct (bind_param ext signature name h w) as [w1 [v | e]];
        simpl in Hc.
      * rewrite IH. exact Hc.
      * exact Hc.
Qed.

(** Binding over a list of hints cut in two. *)
Lemma bind_params_app (ext : Externals) (signature : list Param)
    (before after : list (string * hint)) :
  forall (params : kwargs) (w : world),
    bind_params ext signature (before ++ after) params w
    = match bind_params ext signature before params w with
      | (w1, Return params1) => bind_params ext signature after params1 w1
      | (w1, Raise e) => (w1, Raise e)
      end.
Proof.
  induction before as [| [name h] rest IH]; intros params w.
  - reflexivity.
  - simpl. destruct (String.eqb name "return").
    + apply IH.
    + unfold bind.
      destruct (bind_param ext signature name h w) as [w1 [v | e]].
      * apply IH.
      * reflexivity.
Qed.

(** [_handle] from the lookup of the operation on. *)
Lemma handle_operation (ext : Externals) (self : Application) (w : world)
    (f : function) (hints : list (string * hint)) :
  dispatches_to self w f hints ->
  _handle ext self w
  = match bind_params ext (fn_signature f) hints [] (stripped self w) with
    | (w1, Return params) =>
        (invoked params w1,
         (result_ <- fn_call f params ;;
          respond ext (return_hint_of hints) result_)%result)
    | (w1, Raise e) => (w1, Raise e)
    end.
Proof.
  intros [resource [[Hpre Htr] [Hop [Hf Hh]]]].
  unfold _handle, bind, get_request, set_request, lift, raise.
  rewrite Hpre. simpl.
  unfold segments_of, stripped in Htr. simpl in Htr. rewrite Htr.
  unfold operation_name in Hop, Hf. rewrite Hop, Hf. simpl. rewrite Hh.
  fold (stripped self w).
  destruct (bind_params ext (fn_signature f) hints [] (stripped self w))
    as [w1 [params | e]]; [| reflexivity].
  unfold record, invoked, return_hint_of. simpl.
  destruct (fn_call f params) as [v | e]; reflexivity.
Qed.

Lemma bind_param_absent (ext : Externals) (signature : list Param)
    (name : string) (h h' : hint) (in_param : ParamIn) (w1 w2 : world)
    (p : Param) :
  param_source name h = (h', in_param) ->
  ParamIn_get ext in_param h' w1 = (w2, Return VNone) ->
  parameters_get name signature = Return p ->
  bind_param ext signature name h w1
  = (w2,
     match p_default p with
     | Some _ => Return VNone
     | None =>
         if is_optional ext h' then Return VNone
         else Raise (exn_msg BadRequestError
                       ("expecting value in " ++ ParamIn_str in_param))
     end).
Proof.
  intros Hsrc Hget Hp. unfold bind_param. rewrite Hsrc.
  unfold bind. rewrite Hget. unfold lift. rewrite Hp.
  destruct (p_default p); [reflexivity |].
  destruct (is_optional ext h'); reflexivity.
Qed.

(** C8, as stated, fails: the only parameter of [upload], [payload], is
    read from the request body, has no default and is not optional; for a
    request without body its value is absent and dispatch fails with
    [BadRequestError], but the message, [expecting value in request body],
    does not name the parameter. *)
Lemma missing_body_parameter_not_named :
  let w := initial (request_for "POST" "/") in
  parameters_get "payload" (fn_signature upload)
  = Return {| p_name := "payload"; p_kind := POSITIONAL_OR_KEYWORD;
              p_default := None |}
  /\ is_optional ext0 (Plain bytes_class) = false
  /\ snd (ParamIn_get ext0 InBody (Plain bytes_class)
            (stripped (app_of uploads) w)) = Return VNone
  /\ snd (_handle ext0 (app_of uploads) w)
     = Raise (exn_msg BadRequestError "expecting value in request body")
  /\ contains "payload" "expecting value in request body" = false.
Proof.
  repeat split; reflexivity.
Qed.

(** C8, amended.  When the parameters before it have been bound, a
    parameter whose resolved value is absent, which has no default and is
    not optional, makes dispatch fail with [BadRequestError]; the message
    is [expecting value in] followed by the description of the source:
    the kind of source and the key that was looked up for a query, header
    or cookie source (the key is the name of the parameter when its hint
    has no source annotation), and [request body] for the body source.
    The operation is not called. *)
Theorem missing_required_parameter (ext : Externals) (self : Application)
    (w w1 w2 : world) (f : function) (before after : list (string * hint))
    (name : string) (h h' : hint) (in_param : ParamIn) (params1 : kwargs)
    (p : Param) :
  dispatches_to self w f (before ++ (name, h) :: after)%list ->
  name <> "return" ->
  bind_params ext (fn_signature f) before [] (stripped self w)
  = (w1, Return params1) ->
  param_source name h = (h', in_param) ->
  ParamIn_get ext in_param h' w1 = (w2, Return VNone) ->
  parameters_get name (fn_signature f) = Return p ->
  p_default p = None ->
  is_optional ext h' = false ->
  _handle ext self w
  = (w2, Raise (exn_msg BadRequestError
                  ("expecting value in " ++ ParamIn_str in_param)))
  /\ w_calls w2 = w_calls w
  /\ ParamIn_str in_param
     = match in_param with
       | _InString _ key description => description ++ ": " ++ key
       | _InBody => "request body"
       end
  /\ (forall t, h = Plain t -> in_param = InQuery name).
Proof.
  intros Hd Hname Hbefore Hsrc Hget Hp Hdef Hopt.
  assert (Hw2 : w_calls w2 = w_calls w).
  { pose proof (ParamIn_get_calls ext in_param h' w1) as [Hc _].
    rewrite Hget in Hc. simpl in Hc. rewrite Hc.
    pose proof (bind_params_calls ext (fn_signature f) before []
                  (stripped self w)) as Hb.
    rewrite Hbefore in Hb. exact Hb. }
  split; [| split; [| split]].
  - rewrite (handle_operation ext self w f _ Hd), bind_params_app, Hbefore.
    simpl.
    apply String.eqb_neq in Hname. rewrite Hname. unfold bind.
    rewrite (bind_param_absent ext _ name h h' in_param w1 w2 p Hsrc Hget Hp),
      Hdef, Hopt.
    reflexivity.
  - exact Hw2.
  - destruct in_param; reflexivity.
  - intros t Ht. subst h. simpl in Hsrc. inversion Hsrc. reflexivity.
Qed.

Lemma missing_required_parameter_witness :
  let w := initial (request_for "GET" "/") in
  _handle ext0 (app_of listing) w
  = (stripped (app_of listing) w,
     Raise (exn_msg BadRequestError
              "expecting value in query parameter: name")).
Proof.
  simpl.
  refine (proj1 (@missing_required_parameter ext0 (app_of listing)
                   (initial (request_for "GET" "/")) _ _ listing_get
                   [] [("limit", Plain int_type);
                       ("return", Plain str_type)]
                   "name" (Plain str_type) (Plain str_type)
                   (InQuery "name") [] _ _ _ eq_refl eq_refl eq_refl
                   eq_refl eq_refl eq_refl)).
  - exists listing. repeat split; reflexivity.
  - discriminate.
Defined.

Lemma lookup_dict_set_same (name : string) (v : pyval) (params : kwargs) :
  lookup name (dict_set name v params) = Some v.
Proof.
  induction params as [| [k x] rest IH]; simpl.
  - rewrite String.eqb_refl. reflexivity.
  - destruct (String.eqb k name) eqn:Hk; simpl.
    + rewrite String.eqb_sym, Hk. reflexivity.
    + rewrite String.eqb_sym, Hk. exact IH.
Qed.

Lemma lookup_dict_set_other (name k : string) (v : pyval) (params : kwargs) :
  name <> k ->
  lookup name (dict_set k v params) = lookup name params.
Proof.
  intros Hne. apply String.eqb_neq in Hne.
  induction params as [| [k' x] rest IH]; simpl.
  - rewrite Hne. reflexivity.
  - destruct (String.eqb k' k) eqn:Hk; simpl.
    + apply String.eqb_eq in Hk. subst k'. rewrite Hne. reflexivity.
    + destruct (String.eqb name k'); [reflexivity | exact IH].
Qed.

(** Binding the parameters of [hints] leaves the binding of any other name
    as it was. *)
Lemma bind_params_keeps (ext : Externals) (signature : list Param)
    (name : string) (hints : list (string * hint)) :
  ~ In name (map fst hints) ->
  forall (params params' : kwargs) (w w' : world),
    bind_params ext signature hints params w = (w', Return params') ->
    lookup name params' = lookup name params.
Proof.
  induction hints as [| [k h] rest IH]; intros Hnot params params' w w' Hb.
  - simpl in Hb. inversion Hb. reflexivity.
  - simpl in Hnot, Hb.
    assert (Hk : name <> k) by (intros ->; apply Hnot; left; reflexivity).
    assert (Hrest : ~ In name (map fst rest))
      by (intros Hin; apply Hnot; right; exact Hin).
    destruct (String.eqb k "return").
    + apply (IH Hrest _ _ _ _ Hb).
    + unfold bind in Hb.
      destruct (bind_param ext signature k h w) as [w1 [v | e]];
        [| discriminate].
      rewrite (IH Hrest _ _ _ _ Hb). apply lookup_dict_set_other. exact Hk.
Qed.

(** C10.  When the parameters before it have been bound, a parameter that
    declares a default [d] and whose resolved value is absent is bound to
    [None]; when the remaining parameters are bound too, the operation is
    called with keyword arguments in which the parameter is [None],
    whatever [d] is. *)
Theorem default_never_applied (ext : Externals) (self : Application)
    (w w1 w2 w3 : world) (f : function)
    (before after : list (string * hint)) (name : string) (h h' : hint)
    (in_param : ParamIn) (params1 params : kwargs) (p : Param) (d : pyval) :
  dispatches_to self w f (before ++ (name, h) :: after)%list ->
  name <> "return" ->
  ~ In name (map fst after) ->
  bind_params ext (fn_signature f) before [] (stripped self w)
  = (w1, Return params1) ->
  param_source name h = (h', in_param) ->
  ParamIn_get ext in_param h' w1 = (w2, Return VNone) ->
  parameters_get name (fn_signature f) = Return p ->
  p_default p = Some d ->
  bind_params ext (fn_signature f) after (dict_set name VNone params1) w2
  = (w3, Return params) ->
  lookup name params = Some VNone
  /\ _handle ext self w
     = (invoked params w3,
        (result_ <- fn_call f params ;;
         respond ext (return_hint_of (before ++ (name, h) :: after)) result_
        )%result)
  /\ w_calls (fst (_handle ext self w))
     = (w_calls w ++ [Invoked params])%list.
Proof.
  intros Hd Hname Hnodup Hbefore Hsrc Hget Hp Hdef Hafter.
  assert (Hrun : _handle ext self w
                 = (invoked params w3,
                    (result_ <- fn_call f params ;;
                     respond ext
                       (return_hint_of (before ++ (name, h) :: after))
                       result_)%result)).
  { rewrite (handle_operation ext self w f _ Hd), bind_params_app, Hbefore.
    simpl. apply String.eqb_neq in Hname. rewrite Hname. unfold bind.
    rewrite (bind_param_absent ext _ name h h' in_param w1 w2 p Hsrc Hget Hp),
      Hdef.
    rewrite Hafter. reflexivity. }
  split; [| split].
  - rewrite (bind_params_keeps ext _ name after Hnodup _ _ _ _ Hafter).
    apply lookup_dict_set_same.
  - exact Hrun.
  - rewrite Hrun. simpl.
    pose proof (bind_params_calls ext (fn_signature f) after
                  (dict_set name VNone params1) w2) as Ha.
    rewrite Hafter in Ha. simpl in Ha. rewrite Ha.
    pose proof (ParamIn_get_calls ext in_param h' w1) as [Hc _].
    rewrite Hget in Hc. simpl in Hc. rewrite Hc.
    pose proof (bind_params_calls ext (fn_signature f) before []
                  (stripped self w)) as Hb.
    rewrite Hbefore in Hb. simpl in Hb. rewrite Hb. reflexivity.
Qed.

Lemma default_never_applied_witness :
  let w := initial (query_request "GET" "/" [("name", "a")]) in
  parameters_get "limit" (fn_signature listing_get)
  = Return {| p_name := "limit"; p_kind := POSITIONAL_OR_KEYWORD;
              p_default := Some (VInt 10) |}
  /\ lookup "limit" [("name", VStr "a"); ("limit", VNone)] = Some VNone
  /\ w_calls (fst (_handle ext0 (app_of listing) w))
     = [Invoked [("name", VStr "a"); ("limit", VNone)]].
Proof.
  simpl.
  assert (Hd : dispatches_to (app_of listing)
                 (initial (query_request "GET" "/" [("name", "a")]))
                 listing_get
                 ([("name", Plain str_type)]
                  ++ ("limit", Plain int_type)
                     :: [("return", Plain str_type)])).
  { exists listing. repeat split; reflexivity. }
  assert (Hne : "limit" <> "return") by discriminate.
  assert (Hnot : ~ In "limit" (map fst [("return", Plain str_type)])).
  { simpl. intros [H | []]. discriminate. }
  pose proof (@default_never_applied ext0 (app_of listing)
                (initial (query_request "GET" "/" [("name", "a")]))
                _ _ _ listing_get
                [("name", Plain str_type)] [("return", Plain str_type)]
                "limit" (Plain int_type) (Plain int_type) (InQuery "limit")
                _ _ _ (VInt 10) Hd Hne Hnot eq_refl eq_refl eq_refl eq_refl
                eq_refl eq_refl) as [H1 [_ H3]].
  split; [reflexivity | split; [exact H1 | exact H3]].
Defined.

(** ** Response encoding *)

(** When [_handle] returns, what it returns was built by [respond]. *)
Lemma handle_returns (ext : Externals) (self : Application) (w w' : world)
    (v : pyval) :
  _handle ext self w = (w', Return v) ->
  exists return_hint result_, respond ext return_hint result_ = Return v.
Proof.
  unfold _handle, bind, get_request, set_request, lift, raise, record.
  destruct (startswith (path (w_request w)) (app_path self));
    simpl; [| discriminate].
  destruct (traverse _ _) as [resource | e]; [| discriminate].
  destruct (is_operation _); simpl; [| discriminate].
  destruct (as_function _) as [f | e]; [| discriminate].
  destruct (fn_hints f) as [hints | e]; [| discriminate].
  destruct (bind_params _ _ _ _ _) as [w1 [params | e]]; [| discriminate].
  destruct (fn_call f params) as [result_ | e]; [| discriminate].
  intros H. inversion H. eauto.
Qed.

(** What [respond] returns is a response that carries a body; its status
    is 204 when the length of the body is known to be zero, and 200
    otherwise. *)
Lemma respond_status (ext : Externals) (return_hint : hint)
    (result_ v : pyval) :
  respond ext return_hint result_ = Return v ->
  exists response s,
    v = VResponse response
    /\ body (response_message response) = Some s
    /\ status response
       = match content_length s with
         | Some n => if Z.eqb n 0 then HTTPStatus_NO_CONTENT
                     else HTTPStatus_OK
         | None => HTTPStatus_OK
         end.
Proof.
  unfold respond, rbind.
  destruct (validate ext result_ return_hint); [| discriminate].
  assert (Hfinish : forall x,
    match x with
    | VStream s =>
        match content_length s with
        | Some n =>
            if Z.eqb n 0
            then Return (VResponse
                   (set_status
                      (set_header (set_body Response_new (Some s))
                         "Content-Type" (content_type s))
                      HTTPStatus_NO_CONTENT))
            else Return (VResponse
                   (set_header
                      (set_header (set_body Response_new (Some s))
                         "Content-Type" (content_type s))
                      "Content-Length" (str_of_Z n)))
        | None =>
            Return (VResponse
              (set_header (set_body Response_new (Some s))
                 "Content-Type" (content_type s)))
        end
    | _ => Raise (exn_msg AttributeError
                    "object has no attribute 'content_type'")
    end = Return v ->
    exists response s,
      v = VResponse response
      /\ body (response_message response) = Some s
      /\ status response
         = match content_length s with
           | Some n => if Z.eqb n 0 then HTTPStatus_NO_CONTENT
                       else HTTPStatus_OK
           | None => HTTPStatus_OK
           end).
  { intros x. destruct x; try discriminate.
    destruct (content_length s) as [n |] eqn:Hlen.
    - destruct (Z.eqb n 0) eqn:Hn; intros H; inversion H;
        eexists; exists s; (split; [reflexivity |]);
        (split; [reflexivity |]); rewrite Hlen, Hn; reflexivity.
    - intros H; inversion H. eexists; exists s.
      split; [reflexivity |]. split; [reflexivity |].
      rewrite Hlen. reflexivity. }
  destruct (is_stream ext return_hint); simpl.
  - apply Hfinish.
  - destruct (get_codec_Binary ext return_hint) as [c | e]; [| discriminate].
    destruct (encode c result_) as [content | e]; [| discriminate].
    apply (Hfinish (VStream (BytesStream content (codec_content_type c)))).
Qed.

(** C9.  When dispatch succeeds with a response whose body has a known
    length of zero, the status of the response is 204, whatever the
    return type of the operation. *)
Theorem empty_body_status_204 (ext : Externals) (self : Application)
    (w w' : world) (response : Response) (s : Stream) :
  _handle ext self w = (w', Return (VResponse response)) ->
  body (response_message response) = Some s ->
  content_length s = Some 0 ->
  status response = HTTPStatus_NO_CONTENT.
Proof.
  intros Hrun Hbody Hlen.
  destruct (handle_returns ext self w w' _ Hrun) as [rh [res Hres]].
  destruct (respond_status ext rh res _ Hres)
    as [response' [s' [Hv [Hbody' Hstatus]]]].
  inversion Hv; subst response'.
  rewrite Hbody in Hbody'. inversion Hbody'; subst s'.
  rewrite Hstatus, Hlen. reflexivity.
Qed.

Lemma empty_body_status_204_witness :
  exists w' response s,
    _handle ext0 (app_of silent) (initial (request_for "DELETE" "/"))
    = (w', Return (VResponse response))
    /\ body (response_message response) = Some s
    /\ content_length s = Some 0
    /\ status response = 204.
Proof.
  eexists. eexists. eexists.
  split; [vm_compute; reflexivity |].
  split; [reflexivity |]. split; [reflexivity |].
  exact (@empty_body_status_204 ext0 (app_of silent)
           (initial (request_for "DELETE" "/")) _ _ _
           eq_refl eq_refl eq_refl).
Defined.

(** * Further properties of the two modules *)

(** ** [authorize] *)

(** Requirements that refuse with [UnauthorizedError] are passed over:
    the loop goes on with the rest, with some exception recorded or
    none. *)
Lemma authorize_loop_passes_refusals (before rest : list SecurityRequirement) :
  Forall refuses before ->
  forall exception,
  exists exception',
    authorize_loop (before ++ rest)%list exception
    = authorize_loop rest exception'.
Proof.
  induction 1 as [| r before' [ex [Hr Hu]] _ IH]; intros exception.
  - exists exception. reflexivity.
  - simpl. rewrite Hr.
    assert (Hf : isinstance ex ForbiddenError = false).
    { unfold isinstance in *. destruct (exn_cls ex); try discriminate;
        reflexivity. }
    rewrite Hf, Hu. destruct exception; apply IH.
Qed.

(** X1.  The first requirement that authorizes grants the call: the
    refusals before it are forgotten and the requirements after it are
    not asked. *)
Theorem authorize_first_grant (before after : list SecurityRequirement)
    (r : SecurityRequirement) :
  Forall refuses before ->
  req_authorize r = Return tt ->
  authorize (Some (before ++ r :: after)%list) = Return tt.
Proof.
  intros Hb Hr. unfold authorize.
  destruct (authorize_loop_passes_refusals before (r :: after) Hb None)
    as [exception' ->].
  simpl. rewrite Hr. reflexivity.
Qed.

Lemma authorize_first_grant_witness :
  authorize (Some ([unauthenticated; unauthenticated'] ++ grants :: [forbids])%list)
  = Return tt.
Proof.
  apply (authorize_first_grant [unauthenticated; unauthenticated'] [forbids]
           grants).
  - repeat constructor; eexists; split; reflexivity.
  - reflexivity.
Defined.

(** X2.  An exception that is neither [ForbiddenError] nor
    [UnauthorizedError] leaves [authorize] at once, as it is: the refusals
    recorded before it are dropped and the remaining requirements are not
    asked. *)
Theorem authorize_other_exception (before after : list SecurityRequirement)
    (r : SecurityRequirement) (ex : exn) :
  Forall refuses before ->
  req_authorize r = Raise ex ->
  isinstance ex ForbiddenError = false ->
  isinstance ex UnauthorizedError = false ->
  authorize (Some (before ++ r :: after)%list) = Raise ex.
Proof.
  intros Hb Hr Hf Hu. unfold authorize.
  destruct (authorize_loop_passes_refusals before (r :: after) Hb None)
    as [exception' ->].
  simpl. rewrite Hr, Hf, Hu. reflexivity.
Qed.

Lemma authorize_other_exception_witness :
  authorize (Some ([unauthenticated] ++ unavailable :: [grants])%list)
  = Raise (exn_msg RuntimeError "directory unreachable").
Proof.
  apply (authorize_other_exception [unauthenticated] [grants] unavailable).
  - repeat constructor; eexists; split; reflexivity.
  - reflexivity.
  - reflexivity.
  - reflexivity.
Defined.

(** X3.  When every requirement refuses with [UnauthorizedError],
    [authorize] raises the first of these refusals again, once all the
    requirements have been asked. *)
Theorem authorize_first_unauthorized (r : SecurityRequirement)
    (rest : list SecurityRequirement) (ex : exn) :
  req_authorize r = Raise ex ->
  isinstance ex UnauthorizedError = true ->
  Forall refuses rest ->
  authorize (Some (r :: rest)) = Raise ex.
Proof.
  intros Hr Hu Hrest.
  apply (authorize_only_unauthorized r rest ex Hr Hu). exact Hrest.
Qed.

Lemma authorize_first_unauthorized_witness :
  authorize (Some [unauthenticated; unauthenticated'])
  = Raise (exn_msg UnauthorizedError "who are you").
Proof.
  apply (authorize_first_unauthorized unauthenticated [unauthenticated']).
  - reflexivity.
  - reflexivity.
  - repeat constructor; eexists; split; reflexivity.
Defined.

(** As soon as a requirement fails with [ForbiddenError], after any
    number of [UnauthorizedError] refusals, [authorize] raises [NameError]
    for [ForbiddenException]: the failure itself is not raised again and
    the requirements after it, even one that would authorize, are not
    asked. *)
Theorem authorize_forbidden_NameError (before after : list SecurityRequirement)
    (r : SecurityRequirement) (ex : exn) :
  Forall refuses before ->
  req_authorize r = Raise ex ->
  isinstance ex ForbiddenError = true ->
  authorize (Some (before ++ r :: after)%list)
  = Raise (name_error "ForbiddenException").
Proof.
  intros Hb Hr Hf. unfold authorize.
  destruct (authorize_loop_passes_refusals before (r :: after) Hb None)
    as [exception' ->].
  apply (authorize_loop_forbidden r after exception' ex Hr Hf).
Qed.

Lemma authorize_forbidden_NameError_witness :
  authorize (Some ([unauthenticated] ++ forbids :: [grants])%list)
  = Raise (name_error "ForbiddenException").
Proof.
  apply (authorize_forbidden_NameError [unauthenticated] [grants] forbids
           (exn_msg ForbiddenError "not allowed")).
  - repeat constructor; eexists; split; reflexivity.
  - reflexivity.
  - reflexivity.
Defined.

(** ** [operation] *)

Lemma check_parameters_named (ps : list Param) :
  check_parameters ps = Return tt <-> Forall named_parameter ps.
Proof.
  induction ps as [| p ps IH]; simpl.
  - split; [constructor | reflexivity].
  - unfold named_parameter at 1.
    destruct (p_kind p) eqn:Hk.
    + rewrite IH. split.
      * intros H. constructor; [| exact H].
        unfold named_parameter. rewrite Hk. split; discriminate.
      * intros H. inversion H. assumption.
    + split; [discriminate |]. intros H. inversion H as [| ? ? [Hp _] _].
      congruence.
    + split; [discriminate |]. intros H. inversion H as [| ? ? [_ Hp] _].
      congruence.
Qed.

(** X4.  [operation] accepts a function exactly when it is a coroutine
    function without variadic parameter; what it refuses, it refuses with
    [TypeError]. *)
Theorem operation_accepts (security : option (list SecurityRequirement))
    (wrapped : function) :
  ((exists op, operation security wrapped = Return op)
   <-> fn_coroutine wrapped = true
       /\ Forall named_parameter (fn_signature wrapped))
  /\ (forall e, operation security wrapped = Raise e ->
        isinstance e TypeError = true).
Proof.
  unfold operation.
  destruct (fn_coroutine wrapped); simpl.
  - pose proof (check_parameters_named (fn_signature wrapped)) as Hc.
    destruct (check_parameters (fn_signature wrapped)) as [[] | e] eqn:Hchk;
      simpl.
    + split.
      * split; [intros _ | intros _; eexists; reflexivity].
        split; [reflexivity | apply Hc; reflexivity].
      * discriminate.
    + split.
      * split; [intros [op H]; discriminate |].
        intros [_ H]. apply Hc in H. discriminate.
      * intros e' He'. inversion He'; subst e'. clear - Hchk.
        induction (fn_signature wrapped) as [| p ps IH]; simpl in Hchk;
          [discriminate |].
        destruct (p_kind p); [apply IH; exact Hchk | |];
          inversion Hchk; reflexivity.
  - split.
    + split; [intros [op H]; discriminate | intros [H _]; discriminate].
    + intros e He. inversion He. reflexivity.
Qed.

(** The object that [operation] returns: its markers, its function facet
    and what a call does. *)
Lemma operation_shape
    (security : option (list SecurityRequirement)) (wrapped : function)
    (op : obj) :
  operation security wrapped = Return op ->
  is_operation op = true
  /\ is_resource op = false
  /\ exists f,
       as_function op = Return f
       /\ fn_signature f = fn_signature wrapped
       /\ fn_hints f = fn_hints wrapped
       /\ forall kw,
            fn_call f kw
            = match authorize security with
              | Return _ => fn_call wrapped kw
              | Raise e => Raise e
              end.
Proof.
  unfold operation. destruct (fn_coroutine wrapped); simpl; [| discriminate].
  destruct (check_parameters (fn_signature wrapped)); simpl; [| discriminate].
  intros H. inversion H; subst op. clear H.
  split; [reflexivity | split; [reflexivity |]].
  eexists. split; [reflexivity |].
  split; [reflexivity | split; [reflexivity |]].
  intros kw. simpl. destruct (authorize security); reflexivity.
Qed.

(** X5.  What [operation] returns is an operation and not a resource; it
    keeps the signature and the hints of the function, and a call first
    runs [authorize] on the requirements: when authorization fails the
    call raises that failure, whatever the function would do, and when it
    passes the call is the call of the function. *)
Theorem operation_authorizes_first
    (security : option (list SecurityRequirement)) (wrapped : function)
    (op : obj) :
  operation security wrapped = Return op ->
  is_operation op = true
  /\ is_resource op = false
  /\ exists f,
       as_function op = Return f
       /\ fn_signature f = fn_signature wrapped
       /\ fn_hints f = fn_hints wrapped
       /\ forall kw,
            fn_call f kw
            = match authorize security with
              | Return _ => fn_call wrapped kw
              | Raise e => Raise e
              end.
Proof.
  exact (operation_shape security wrapped op).
Qed.

Lemma operation_authorizes_first_witness :
  exists f,
    as_function (getattr guarded "get") = Return f
    /\ forall kw,
         fn_call f kw = Raise (exn_msg UnauthorizedError "who are you").
Proof.
  destruct (operation_authorizes_first
              (Some [unauthenticated; unauthenticated'])
              (nullary (Some (Plain str_type)) (Return (VStr "secret")))
              (getattr guarded "get") eq_refl)
    as [_ [_ [f [Hf [_ [_ Hcall]]]]]].
  exists f. split; [exact Hf | exact Hcall].
Defined.

(** X6.  When the requirements of the operation that a request reaches do
    not authorize the call, dispatch raises the failure of [authorize] as
    it is, once the parameters are bound: the function is not run and no
    response is encoded. *)
Theorem dispatch_not_authorized (ext : Externals) (self : Application)
    (w w1 : world) (resource : obj)
    (security : option (list SecurityRequirement)) (wrapped : function)
    (hints : list (string * hint)) (params : kwargs) (e : exn) :
  resolves_to self w resource ->
  operation security wrapped
  = Return (getattr resource (operation_name w)) ->
  fn_hints wrapped = Return hints ->
  bind_params ext (fn_signature wrapped) hints [] (stripped self w)
  = (w1, Return params) ->
  authorize security = Raise e ->
  _handle ext self w = (invoked params w1, Raise e).
Proof.
  intros Hres Hop Hh Hb Ha.
  destruct (operation_shape security wrapped _ Hop)
    as [Hisop [_ [f [Hf [Hsig [Hhints Hcall]]]]]].
  assert (Hd : dispatches_to self w f hints).
  { exists resource. repeat split; try assumption; try apply Hres.
    rewrite Hhints. exact Hh. }
  rewrite (handle_operation ext self w f hints Hd), Hsig, Hb, Hcall, Ha.
  reflexivity.
Qed.

Lemma dispatch_not_authorized_witness :
  let w := initial (request_for "GET" "/") in
  _handle ext0 (app_of guarded) w
  = (invoked [] (stripped (app_of guarded) w),
     Raise (exn_msg UnauthorizedError "who are you")).
Proof.
  simpl.
  refine (@dispatch_not_authorized ext0 (app_of guarded)
            (initial (request_for "GET" "/")) _ guarded
            (Some [unauthenticated; unauthenticated'])
            (nullary (Some (Plain str_type)) (Return (VStr "secret")))
            [("return", Plain str_type)] [] _ _ eq_refl eq_refl eq_refl
            eq_refl).
  split; reflexivity.
Defined.

(** ** [container_resource] and inner resources *)

Lemma getattr_resource_other (tag name : string) (o : obj) :
  name <> "_fondat_resource" ->
  getattr (resource tag o) name = getattr o name.
Proof.
  intros Hne. apply String.eqb_neq in Hne.
  destruct o; try reflexivity. simpl. rewrite Hne. reflexivity.
Qed.

(** X7.  A container is a resource, and a segment that names one of its
    resources resolves to that resource: traversal goes on from there.
    (Segments that begin with two underscores name attributes that every
    object has; they are not among the attributes of the model.) *)
Theorem container_resolves (resources : list (string * obj))
    (tag name : string) (r : obj) (rest : list string) :
  startswith name "__" = false ->
  name <> "_fondat_resource" ->
  lookup name resources = Some r ->
  is_resource r = true ->
  is_resource (container_resource resources tag) = true
  /\ traverse (container_resource resources tag) (name :: rest)
     = traverse r rest.
Proof.
  intros _ Hne Hl Hres. split; [reflexivity |].
  simpl. unfold _subordinate, container_resource.
  rewrite (getattr_resource_other tag name _ Hne). simpl. rewrite Hl.
  assert (Hn : is_None r = false).
  { destruct r; try reflexivity. discriminate. }
  rewrite Hn, Hres. reflexivity.
Qed.

Lemma container_resolves_witness :
  traverse nested ["c1"; "r2"] = Return leaf.
Proof.
  unfold nested.
  rewrite (proj2 (container_resolves
                    [("c1", container_resource [("r2", leaf)] "Container")]
                    "Container" "c1"
                    (container_resource [("r2", leaf)] "Container") ["r2"]
                    eq_refl ltac:(discriminate) eq_refl eq_refl)).
  rewrite (proj2 (container_resolves [("r2", leaf)] "Container" "r2" leaf []
                    eq_refl ltac:(discriminate) eq_refl eq_refl)).
  reflexivity.
Defined.

(** X8.  A segment that names none of the resources of a container makes
    traversal fail with [NotFoundError]: the container has no such
    attribute and is not subscriptable. *)
Theorem container_unknown_name (resources : list (string * obj))
    (tag name : string) (rest : list string) :
  startswith name "__" = false ->
  name <> "_fondat_resource" ->
  lookup name resources = None ->
  traverse (container_resource resources tag) (name :: rest)
  = Raise (exn_new NotFoundError).
Proof.
  intros _ Hne Hl. simpl. unfold _subordinate, container_resource.
  rewrite (getattr_resource_other tag name _ Hne). simpl. rewrite Hl.
  simpl. unfold resource. simpl. reflexivity.
Qed.

Lemma container_unknown_name_witness :
  traverse nested ["c2"; "r2"] = Raise (exn_new NotFoundError).
Proof.
  unfold nested.
  apply (container_unknown_name
           [("c1", container_resource [("r2", leaf)] "Container")]
           "Container" "c2" ["r2"] eq_refl).
  - discriminate.
  - reflexivity.
Defined.

Lemma getattr_setattr (ga : string -> option obj)
    (gi : option (string -> result obj)) (c : option (function * result obj))
    (name m : string) (v : obj) :
  getattr (setattr (PyObject ga gi c) name v) m
  = if String.eqb m name then v else getattr (PyObject ga gi c) m.
Proof.
  simpl. destruct (String.eqb m name); reflexivity.
Qed.

(** The attributes of the object that [inner] returns. *)
Lemma inner_attributes (method : string)
    (security : option (list SecurityRequirement)) (wrapped : function)
    (outer o : obj) :
  inner method security wrapped outer = Return o ->
  exists proxy f,
    operation security wrapped = Return proxy
    /\ as_function proxy = Return f
    /\ as_function o = Return f
    /\ forall m,
         getattr o m
         = if String.eqb m "_outer" then outer
           else if String.eqb m "__call__" then proxy
           else if String.eqb m method then proxy
           else if String.eqb m "_fondat_resource"
                then SimpleNamespace [("tag", PyValue (VStr TAG_INNER))]
                else PyNone.
Proof.
  unfold inner. destruct (fn_coroutine wrapped) eqn:Hco; simpl;
    [| discriminate].
  destruct (String.eqb method EmptyString); [discriminate |].
  destruct (operation security wrapped) as [proxy | e] eqn:Hop; simpl;
    [| discriminate].
  intros H. inversion H; subst o. clear H.
  pose proof Hop as Hshape. unfold operation in Hshape.
  rewrite Hco in Hshape. simpl in Hshape.
  destruct (check_parameters (fn_signature wrapped)); simpl in Hshape;
    [| discriminate].
  inversion Hshape as [Hproxy]. clear Hshape.
  eexists. eexists. split; [reflexivity |].
  split; [reflexivity |]. split; [reflexivity |].
  intros m. simpl.
  destruct (String.eqb m "_outer"); [reflexivity |].
  destruct (String.eqb m "__call__"); [reflexivity |].
  destruct (String.eqb m method); [reflexivity |].
  destruct (String.eqb m "_fondat_resource"); reflexivity.
Qed.

Lemma is_operation_not_None (o : obj) :
  is_operation o = true -> is_None o = false.
Proof.
  destruct o; try discriminate. reflexivity.
Qed.

Lemma no_underscore_names (m : string) :
  startswith m "_" = false ->
  String.eqb m "_outer" = false
  /\ String.eqb m "__call__" = false
  /\ String.eqb m "_fondat_resource" = false.
Proof.
  intros H. repeat split;
    (destruct (String.eqb m _) eqn:He; [| reflexivity];
     apply String.eqb_eq in He; subst m; discriminate).
Qed.

(** X9.  What [inner] returns for a method name that does not begin with
    an underscore (a name such as [get] or [post]; [__init__],
    [__name__], [__new__] and the like are excluded) is a resource that
    has the decorated function as its operation under that name; calling
    the resource is calling that operation; and traversal descends into it
    as into any resource, without calling it. *)
Theorem inner_resource (method : string)
    (security : option (list SecurityRequirement)) (wrapped : function)
    (outer o : obj) :
  inner method security wrapped outer = Return o ->
  startswith method "_" = false ->
  is_resource o = true
  /\ is_operation (getattr o method) = true
  /\ operation security wrapped = Return (getattr o method)
  /\ as_function o = as_function (getattr o method)
  /\ forall parent name,
       getattr parent name = o -> _subordinate parent name = Return o.
Proof.
  intros Hin Hus.
  assert (Hne : method <> "_outer") by (intros ->; discriminate).
  destruct (inner_attributes method security wrapped outer o Hin)
    as [proxy [f [Hop [Hf [Hof Hattr]]]]].
  destruct (operation_shape security wrapped proxy Hop)
    as [Hisop _].
  assert (Hm : getattr o method = proxy).
  { rewrite Hattr. apply String.eqb_neq in Hne. rewrite Hne.
    rewrite String.eqb_refl.
    destruct (String.eqb method "__call__"); reflexivity. }
  assert (Hres : is_resource o = true).
  { unfold is_resource. rewrite Hattr.
    change (String.eqb "_fondat_resource" "_outer") with false.
    change (String.eqb "_fondat_resource" "__call__") with false.
    change (String.eqb "_fondat_resource" "_fondat_resource") with true.
    cbv iota.
    destruct (String.eqb "_fondat_resource" method); [| reflexivity].
    rewrite (is_operation_not_None proxy Hisop). reflexivity. }
  split; [exact Hres |]. rewrite Hm.
  split; [exact Hisop |]. split; [exact Hop |].
  split; [rewrite Hof, Hf; reflexivity |].
  intros parent name Hp. unfold _subordinate. rewrite Hp, Hres.
  assert (Hn : is_None o = false).
  { destruct o; try discriminate; reflexivity. }
  rewrite Hn. reflexivity.
Qed.

Lemma inner_resource_witness :
  is_resource q1 = true
  /\ is_operation (getattr q1 "get") = true
  /\ as_function q1 = as_function (getattr q1 "get")
  /\ _subordinate R1 "q1" = Return q1.
Proof.
  destruct (inner_resource "get" None q1_function outer_instance q1 eq_refl)
    as [H1 [H2 [_ [H4 H5]]]]; [reflexivity |].
  split; [exact H1 | split; [exact H2 | split; [exact H4 |]]].
  apply H5. reflexivity.
Defined.

(** X10.  An inner resource has one operation: a request that reaches it
    with another method (whose lowercased name does not begin with an
    underscore) fails with [MethodNotAllowedError]. *)
Theorem inner_other_method (ext : Externals) (self : Application)
    (w : world) (method : string)
    (security : option (list SecurityRequirement)) (wrapped : function)
    (outer o : obj) :
  resolves_to self w o ->
  inner method security wrapped outer = Return o ->
  operation_name w <> method ->
  startswith (operation_name w) "_" = false ->
  _handle ext self w
  = (stripped self w, Raise (exn_new MethodNotAllowedError)).
Proof.
  intros Hres Hin Hne Hus.
  destruct (inner_attributes method security wrapped outer o Hin)
    as [proxy [f [_ [_ [_ Hattr]]]]].
  apply (handle_no_operation ext self w o Hres).
  rewrite Hattr.
  destruct (no_underscore_names _ Hus) as [H1 [H2 H3]].
  apply String.eqb_neq in Hne. rewrite H1, H2, Hne, H3. reflexivity.
Qed.

Lemma inner_other_method_witness :
  let w := initial (request_for "POST" "/q1") in
  _handle ext0 (app_of R1) w
  = (stripped (app_of R1) w, Raise (exn_new MethodNotAllowedError)).
Proof.
  simpl.
  apply (inner_other_method ext0 (app_of R1)
           (initial (request_for "POST" "/q1")) "get" None q1_function
           outer_instance q1).
  - split; reflexivity.
  - reflexivity.
  - discriminate.
  - reflexivity.
Defined.

(** X11.  A resource declared with [query] without a method name answers
    [GET]: a [GET] request that reaches it binds the parameters of the
    decorated function, runs [authorize] on the requirements and then the
    function, and encodes what it returns. *)
Theorem query_answers_get (ext : Externals) (self : Application)
    (w w1 : world) (security : option (list SecurityRequirement))
    (wrapped : function) (outer o : obj) (hints : list (string * hint))
    (params : kwargs) :
  resolves_to self w o ->
  query_ None security wrapped outer = Return o ->
  operation_name w = "get" ->
  fn_hints wrapped = Return hints ->
  bind_params ext (fn_signature wrapped) hints [] (stripped self w)
  = (w1, Return params) ->
  _handle ext self w
  = (invoked params w1,
     match authorize security with
     | Return _ =>
         (result_ <- fn_call wrapped params ;;
          respond ext (return_hint_of hints) result_)%result
     | Raise e => Raise e
     end).
Proof.
  intros Hres Hq Hget Hh Hb. unfold query_ in Hq.
  destruct (inner_attributes "get" security wrapped outer o Hq)
    as [proxy [f [Hop [Hf [_ Hattr]]]]].
  destruct (operation_shape security wrapped proxy Hop)
    as [Hisop [_ [f' [Hf' [Hsig [Hhints Hcall]]]]]].
  rewrite Hf in Hf'. inversion Hf'; subst f'.
  assert (Hm : getattr o (operation_name w) = proxy).
  { rewrite Hget, Hattr. reflexivity. }
  assert (Hd : dispatches_to self w f hints).
  { exists o. rewrite Hm. repeat split; try assumption; try apply Hres.
    rewrite Hhints. exact Hh. }
  rewrite (handle_operation ext self w f hints Hd), Hsig, Hb, Hcall.
  destruct (authorize security); reflexivity.
Qed.

Lemma query_answers_get_witness :
  exists response,
    snd (_handle ext0 (app_of R1) (initial (request_for "GET" "/q1")))
    = Return (VResponse response)
    /\ status response = 200.
Proof.
  eexists. split.
  - rewrite (query_answers_get ext0 (app_of R1)
               (initial (request_for "GET" "/q1")) _ None q1_function
               outer_instance q1 [("return", Plain str_type)] []
               ltac:(split; reflexivity) eq_refl eq_refl eq_refl eq_refl).
    vm_compute. reflexivity.
  - reflexivity.
Defined.

(** ** [Chain.handle] *)


(** The second loop over a list cut in two. *)
Lemma backward_app (l1 l2 : list (nat * suspended)) :
  forall (response : pyval) (w : world),
    backward (l1 ++ l2) response w
    = match backward l1 response w with
      | (w', Return r) => backward l2 r w'
      | (w', Raise e) => (w', Raise e)
      end.
Proof.
  induction l1 as [| [i k] rest IH]; intros response w.
  - reflexivity.
  - simpl. destruct (k response (w_request w)) as [r ed s]. simpl.
    destruct s as [v u | e].
    + apply IH.
    + destruct (isinstance e StopAsyncIteration); [apply IH | reflexivity].
Qed.

(** X12.  When entering a filter raises an exception, after the filters
    before it have let the request through, the chain raises that
    exception: the handler is not called and no filter is resumed, not
    even the two-phase filters that were entered before. *)
Theorem entry_error_aborts (before after : list filter) (f : filter)
    (handler : M pyval) (request request' : Request) (w1 : world)
    (rewind : list (nat * suspended)) (response : pyval) (e : exn) :
  forward 0 before [] VNone (initial request)
  = (w1, Return (rewind, response)) ->
  truthy response = false ->
  entry_raises f (w_request w1) request' e ->
  let out := Chain_handle {| chain_filters := (before ++ f :: after)%list;
                             chain_handler := handler |}
                          (initial request) in
  snd out = Raise e
  /\ w_request (fst out) = request'
  /\ (forall i fed res, ~ In (Resumed i fed res) (w_calls (fst out)))
  /\ ~ In Handled (w_calls (fst out)).
Proof.
  intros Hbefore Hfalsy Hraise out.
  destruct (forward_log before 0 [] VNone (initial request)) as [l Hl].
  rewrite Hbefore in Hl. simpl in Hl.
  assert (Hout : exists evs,
             out = ({| w_request := request';
                       w_calls := (map Started l ++ map Started evs)%list;
                       w_log := w_log w1 |}, Raise e)).
  { unfold out, Chain_handle, bind. simpl chain_filters.
    rewrite (forward_app before (f :: after) _ _ _ _ _ _ _ Hbefore Hfalsy).
    simpl (0 + _)%nat.
    inversion Hraise as [first r r' e' Hf Hns | run r r' e' Hf
                        | call r r' e' Hf]; subst; simpl; rewrite Hf.
    - rewrite Hns. exists [List.length before]. rewrite Hl. reflexivity.
    - exists [List.length before]. rewrite Hl. reflexivity.
    - exists []. rewrite Hl. simpl. rewrite app_nil_r. reflexivity. }
  destruct Hout as [evs ->]. simpl.
  assert (Hstarted : forall ev, In ev (map Started l ++ map Started evs)%list
                                -> exists j, ev = Started j).
  { intros ev Hin. apply in_app_or in Hin.
    destruct Hin as [Hin | Hin]; apply in_map_iff in Hin;
      destruct Hin as [j [Hj _]]; exists j; symmetry; exact Hj. }
  repeat split.
  - intros i fed res Hin. destruct (Hstarted _ Hin) as [j Hj]. discriminate.
  - intros Hin. destruct (Hstarted _ Hin) as [j Hj]. discriminate.
Qed.

Lemma entry_error_aborts_witness :
  let out := Chain_handle {| chain_filters := [passes; fails_on_entry; passes];
                             chain_handler := answers |}
                          (initial (request_for "GET" "/")) in
  snd out = Raise (exn_msg BadRequestError "malformed header")
  /\ w_calls (fst out) = [Started 0; Started 1].
Proof.
  split; [| reflexivity].
  exact (proj1 (entry_error_aborts [passes] [passes] fails_on_entry answers
                  (request_for "GET" "/") (request_for "GET" "/") _ _ _ _
                  eq_refl eq_refl
                  (@coroutine_raises _ _ _ _ eq_refl))).
Defined.



(** X14.  When a two-phase filter raises while it is resumed, the chain
    raises that exception at once: the filters entered before it, which
    are still on the rewind list, are not resumed. *)
Theorem resume_error_aborts (c : Chain) (w w1 w2 w3 : world)
    (up down : list (nat * suspended)) (i : nat) (k : suspended)
    (response r0 r : pyval) (request' : Request)
    (edit : Response -> Response) (e : exn) :
  forward 0 (chain_filters c) [] VNone w
  = (w1, Return ((up ++ (i, k) :: down)%list, response)) ->
  truthy response = false ->
  chain_handler c (handled w1) = (w2, Return r0) ->
  backward (rev down) r0 w2 = (w3, Return r) ->
  k r (w_request w3) = Resume request' edit (Throw e) ->
  isinstance e StopAsyncIteration = false ->
  Chain_handle c w
  = ({| w_request := request';
        w_calls := (w_calls w3 ++ [Resumed i r (Throw e)])%list;
        w_log := w_log w3 |},
     Raise e).
Proof.
  intros Hfwd Hfalsy Hh Hdown Hk Hns.
  unfold Chain_handle, bind. rewrite Hfwd, Hfalsy. simpl.
  unfold record. fold (handled w1). rewrite Hh.
  rewrite rev_app_distr. simpl. rewrite <- app_assoc. simpl.
  rewrite backward_app, Hdown. simpl. rewrite Hk. simpl. rewrite Hns.
  reflexivity.
Qed.

Lemma resume_error_aborts_witness :
  let out := Chain_handle {| chain_filters :=
                               [replaces teapot; fails_on_resume; passes];
                             chain_handler := answers |}
                          (initial (request_for "GET" "/")) in
  snd out = Raise (exn_msg RuntimeError "cannot log response")
  /\ w_calls (fst out)
     = [ Started 0; Started 1; Started 2; Handled;
         Resumed 2 (VResponse Response_new) stop;
         Resumed 1 (VResponse Response_new)
           (Throw (exn_msg RuntimeError "cannot log response")) ].
Proof.
  intros out. unfold out. clear out.
  rewrite (resume_error_aborts
             {| chain_filters := [replaces teapot; fails_on_resume; passes];
                chain_handler := answers |}
             (initial (request_for "GET" "/")) _ _ _
             [(0%nat, fun _ request' =>
                        Resume request' (fun sent => sent)
                               (Yield (VResponse teapot) tt))]
             [(2%nat, observer)]
             1%nat
             (fun _ request' =>
                Resume request' (fun sent => sent)
                       (Throw (exn_msg RuntimeError "cannot log response")))
             VNone (VResponse Response_new) (VResponse Response_new)
             (request_for "GET" "/") (fun sent => sent)
             (exn_msg RuntimeError "cannot log response")
             eq_refl eq_refl eq_refl eq_refl eq_refl eq_refl).
  split; reflexivity.
Defined.

Lemma sent_after_same (sent : pyval) (edit : Response -> Response) :
  (forall r, edit r = r) -> sent_after sent edit = sent.
Proof.
  intros H. destruct sent; simpl; try reflexivity. rewrite H. reflexivity.
Qed.

Lemma backward_quiet (l : list (nat * suspended)) :
  Forall (fun ik => quiet (snd ik)) l ->
  forall (response : pyval) (w : world),
    snd (backward l response w) = Return response.
Proof.
  induction 1 as [| [i k] rest Hk _ IH]; intros response w.
  - reflexivity.
  - simpl. specialize (Hk response (w_request w)). simpl in Hk.
    destruct (k response (w_request w)) as [r ed s]. simpl in *.
    destruct Hk as [Hed Hk]. rewrite (sent_after_same response ed Hed).
    destruct s as [v u | e]; rewrite Hk; apply IH.
Qed.

(** X15.  When no filter answers on entry and the two-phase filters on the
    rewind list only observe (resumed, each leaves the response object it
    is sent as it is, and finishes or yields no true value), the chain
    returns the response of the handler as it is.  A filter that changes
    the response it is sent is not covered. *)
Theorem observers_keep_response (c : Chain) (w w1 w2 : world)
    (rewind : list (nat * suspended)) (response r0 : pyval) :
  forward 0 (chain_filters c) [] VNone w = (w1, Return (rewind, response)) ->
  truthy response = false ->
  chain_handler c (handled w1) = (w2, Return r0) ->
  Forall (fun ik => quiet (snd ik)) rewind ->
  snd (Chain_handle c w) = Return r0.
Proof.
  intros Hfwd Hfalsy Hh Hq.
  unfold Chain_handle, bind. rewrite Hfwd, Hfalsy. simpl.
  unfold record. fold (handled w1). rewrite Hh.
  apply backward_quiet. apply Forall_rev. exact Hq.
Qed.

Lemma observers_keep_response_witness :
  snd (Chain_handle {| chain_filters := [passes; lets_through; passes];
                       chain_handler := answers |}
                    (initial (request_for "GET" "/")))
  = Return (VResponse Response_new).
Proof.
  refine (observers_keep_response
            {| chain_filters := [passes; lets_through; passes];
               chain_handler := answers |}
            (initial (request_for "GET" "/")) _ _ _ _ _
            eq_refl eq_refl eq_refl _).
  repeat constructor; intros v r; split; reflexivity.
Defined.

(** What the first loop appends to the rewind list: generators of distinct
    filters of the part of the chain it walks, all of them asynchronous
    generators. *)
Lemma forward_added (fs : list filter) :
  forall (i : nat) (rewind : list (nat * suspended)) (response : pyval)
         (w w' : world) (rewind' : list (nat * suspended))
         (response' : pyval),
  forward i fs rewind response w = (w', Return (rewind', response')) ->
  exists added,
    rewind' = (rewind ++ added)%list
    /\ NoDup (map fst added)
    /\ Forall (fun ik =>
                 (i <= fst ik)%nat
                 /\ exists first,
                      nth_error fs (fst ik - i) = Some (AsyncGen first))
              added.
Proof.
  induction fs as [| f rest IH];
    intros i rewind response w w' rewind' response' Hf.
  - simpl in Hf. inversion Hf; subst. exists []. rewrite app_nil_r.
    repeat split; constructor.
  - assert (Hnone : exists added : list (nat * suspended),
              rewind = (rewind ++ added)%list
              /\ NoDup (map fst added)
              /\ Forall (fun ik =>
                   (i <= fst ik)%nat
                   /\ exists first,
                        nth_error (f :: rest) (fst ik - i)
                        = Some (AsyncGen first)) added).
    { exists []. rewrite app_nil_r. repeat split; constructor. }
    assert (Hshift : forall added : list (nat * suspended),
              Forall (fun ik =>
                   (S i <= fst ik)%nat
                   /\ exists first,
                        nth_error rest (fst ik - S i)
                        = Some (AsyncGen first)) added ->
              Forall (fun ik =>
                   (i <= fst ik)%nat
                   /\ exists first,
                        nth_error (f :: rest) (fst ik - i)
                        = Some (AsyncGen first)) added).
    { intros added Hall. eapply Forall_impl; [| exact Hall].
      intros [j k]. simpl. intros [Hle [first Hn]]. split; [lia |].
      exists first. replace (j - i)%nat with (S (j - S i)) by lia.
      exact Hn. }
    destruct f as [first | run | call]; simpl in Hf.
    + destruct (first (w_request w)) as [r s]. destruct s as [v k | e].
      * destruct (truthy v).
        -- inversion Hf; subst. exact Hnone.
        -- destruct (IH _ _ _ _ _ _ _ Hf) as [added [Hrw [Hnd Hall]]].
           exists ((i, k) :: added). split; [| split].
           ++ rewrite Hrw, <- app_assoc. reflexivity.
           ++ simpl. constructor; [| exact Hnd].
              intros Hin. apply in_map_iff in Hin.
              destruct Hin as [ik [Heq Hin]].
              rewrite Forall_forall in Hall.
              destruct (Hall ik Hin) as [Hle _]. lia.
           ++ constructor.
              ** simpl. split; [lia |]. exists first.
                 rewrite Nat.sub_diag. reflexivity.
              ** apply Hshift. exact Hall.
      * destruct (isinstance e StopAsyncIteration); [| discriminate].
        destruct (IH _ _ _ _ _ _ _ Hf) as [added [Hrw [Hnd Hall]]].
        exists added. split; [exact Hrw | split; [exact Hnd |]].
        apply Hshift. exact Hall.
    + destruct (run (w_request w)) as [r a].
      destruct a as [v | e]; [| discriminate].
      destruct (truthy v).
      * inversion Hf; subst. exact Hnone.
      * destruct (IH _ _ _ _ _ _ _ Hf) as [added [Hrw [Hnd Hall]]].
        exists added. split; [exact Hrw | split; [exact Hnd |]].
        apply Hshift. exact Hall.
    + destruct (call (w_request w)) as [r a].
      destruct a as [u | e]; [| discriminate].
      destruct (IH _ _ _ _ _ _ _ Hf) as [added [Hrw [Hnd Hall]]].
      exists added. split; [exact Hrw | split; [exact Hnd |]].
      apply Hshift. exact Hall.
Qed.

Lemma NoDup_firstn (A : Type) (n : nat) (l : list A) :
  NoDup l -> NoDup (firstn n l).
Proof.
  intros H. rewrite <- (firstn_skipn n l) in H.
  apply NoDup_app_remove_r in H. exact H.
Qed.

(** X16.  Once the handler has returned, what the chain adds to the call
    log is a sequence of resumptions of distinct filters, each of them a
    two-phase filter of the chain: no filter is resumed twice and a
    one-shot filter is never resumed. *)
Theorem resumed_once_two_phase (c : Chain) (w w1 w2 : world)
    (rewind : list (nat * suspended)) (response r0 : pyval) :
  forward 0 (chain_filters c) [] VNone w = (w1, Return (rewind, response)) ->
  truthy response = false ->
  chain_handler c (handled w1) = (w2, Return r0) ->
  exists xs : list resumption,
    w_calls (fst (Chain_handle c w))
    = (w_calls w2 ++ map resumption_event xs)%list
    /\ NoDup (map resumption_index xs)
    /\ Forall (fun x => exists first,
                 nth_error (chain_filters c) (resumption_index x)
                 = Some (AsyncGen first)) xs.
Proof.
  intros Hfwd Hfalsy Hh.
  assert (Hrun : Chain_handle c w = backward (rev rewind) r0 w2).
  { unfold Chain_handle, bind. rewrite Hfwd, Hfalsy. simpl.
    unfold record. fold (handled w1). rewrite Hh. reflexivity. }
  destruct (forward_added _ _ _ _ _ _ _ _ Hfwd) as [added [Hrw [Hnd Hall]]].
  simpl in Hrw. subst added.
  destruct (backward_log (rev rewind) r0 w2) as [xs [Hcalls [[n Hn] _]]].
  exists xs. split; [rewrite Hrun; exact Hcalls | split].
  - rewrite Hn. apply NoDup_firstn. rewrite map_rev. apply NoDup_rev.
    exact Hnd.
  - rewrite Forall_forall. intros x Hx.
    assert (Hin : In (resumption_index x) (map fst rewind)).
    { apply in_rev. rewrite <- map_rev. apply (In_firstn _ _ n).
      rewrite <- Hn. apply in_map. exact Hx. }
    apply in_map_iff in Hin. destruct Hin as [ik [Heq Hin]].
    rewrite Forall_forall in Hall. destruct (Hall ik Hin) as [_ [first Hf]].
    exists first. rewrite <- Heq. rewrite Nat.sub_0_r in Hf. exact Hf.
Qed.

Lemma resumed_once_two_phase_witness :
  exists xs : list resumption,
    w_calls (fst (Chain_handle
                    {| chain_filters := [passes; lets_through; replaces teapot];
                       chain_handler := answers |}
                    (initial (request_for "GET" "/"))))
    = ([Started 0; Started 1; Started 2; Handled]
       ++ map resumption_event xs)%list
    /\ NoDup (map resumption_index xs)
    /\ Forall (fun x => exists first,
                 nth_error [passes; lets_through; replaces teapot]
                           (resumption_index x)
                 = Some (AsyncGen first)) xs.
Proof.
  exact (resumed_once_two_phase
           {| chain_filters := [passes; lets_through; replaces teapot];
              chain_handler := answers |}
           (initial (request_for "GET" "/")) _ _ _ _ _
           eq_refl eq_refl eq_refl).
Defined.

(** ** The API key filters *)

Lemma resolve_contextlib :
  resolve Http.globals "contextlib" = Raise (name_error "contextlib").
Proof. reflexivity. Qed.

(** No exception that leaves the body of an asynchronous generator is a
    [StopAsyncIteration]. *)
Lemma leaving_generator_not_stop (e : exn) :
  isinstance (leaving_generator e) StopAsyncIteration = false.
Proof.
  unfold leaving_generator.
  destruct (isinstance e StopAsyncIteration) eqn:H; [reflexivity | exact H].
Qed.

(** X17.  In a chain that starts with the filter of a header scheme, the
    walk goes on to the rest of the chain exactly when the request carries
    a value under the header of the scheme and [authenticate] returns a
    true value for it: then the filter leaves the request as it is, does
    not answer in place of the handler, and is put on the rewind list with
    a generator that only observes the response; in every other case the
    chain raises an exception as soon as the filter has been entered, with
    the request left as it is.  When [authenticate] raises, the exception
    is the one it raised, except for [StopAsyncIteration], which leaves
    the generator as a [RuntimeError] that has it as cause. *)
Theorem header_filter_continues (self : APIKeySecurityScheme)
    (rest : list filter) (handler : M pyval) (request : Request)
    (value : option string) :
  ci_get (scheme_key self) (headers (request_message request)) = value ->
  let c := {| chain_filters := HeaderSecurityScheme_filter self :: rest;
              chain_handler := handler |} in
  let w := started 0 request (initial request) in
  (forall credentials auth,
     value = Some credentials ->
     authenticate self credentials = Return auth ->
     truthy auth = true ->
     forward 0 (chain_filters c) [] VNone (initial request)
     = forward 1 rest [(0%nat, observer)] VNone w)
  /\ ((forall credentials auth,
         value = Some credentials ->
         authenticate self credentials = Return auth ->
         truthy auth = false) ->
      exists e, Chain_handle c (initial request) = (w, Raise e))
  /\ (forall credentials e,
        value = Some credentials ->
        authenticate self credentials = Raise e ->
        Chain_handle c (initial request)
        = (w, Raise (if isinstance e StopAsyncIteration
                     then Exn RuntimeError
                            ["async generator raised StopAsyncIteration"]
                            (Some e)
                     else e))).
Proof.
  intros Hv c w. split; [| split].
  - intros credentials auth Hc Ha Ht. simpl.
    unfold key_filter_step, context_manager. rewrite Hv, Hc, Ha, Ht.
    reflexivity.
  - intros Hno. unfold Chain_handle, bind. simpl.
    unfold key_filter_step, context_manager. rewrite Hv.
    destruct value as [credentials |].
    + destruct (authenticate self credentials) as [auth | e] eqn:Ha.
      * rewrite (Hno credentials auth eq_refl Ha). simpl.
        eexists. reflexivity.
      * rewrite leaving_generator_not_stop. eexists. reflexivity.
    + simpl. eexists. reflexivity.
  - intros credentials e Hc Ha. unfold Chain_handle, bind. simpl.
    unfold key_filter_step. rewrite Hv, Hc, Ha.
    rewrite leaving_generator_not_stop. reflexivity.
Qed.

Lemma header_filter_continues_witness :
  forward 0 [HeaderSecurityScheme_filter token_scheme; passes] [] VNone
          (initial (request_with_header "x-token" "s3cret"))
  = forward 1 [passes] [(0%nat, observer)] VNone
            (started 0 (request_with_header "x-token" "s3cret")
                     (initial (request_with_header "x-token" "s3cret")))
  /\ snd (Chain_handle
            {| chain_filters := [HeaderSecurityScheme_filter token_scheme;
                                 passes];
               chain_handler := answers |}
            (initial (request_with_header "x-token" "s3cret")))
     = Return (VResponse Response_new)
  /\ (exists e,
       Chain_handle
         {| chain_filters := [HeaderSecurityScheme_filter token_scheme; passes];
            chain_handler := answers |}
         (initial (request_with_header "x-token" "guess"))
       = (started 0 (request_with_header "x-token" "guess")
                  (initial (request_with_header "x-token" "guess")),
          Raise e))
  /\ Chain_handle
       {| chain_filters := [HeaderSecurityScheme_filter exhausted_scheme;
                            passes];
          chain_handler := answers |}
       (initial (request_with_header "x-token" "any"))
     = (started 0 (request_with_header "x-token" "any")
                (initial (request_with_header "x-token" "any")),
        Raise (Exn RuntimeError ["async generator raised StopAsyncIteration"]
                   (Some (exn_new StopAsyncIteration)))).
Proof.
  split; [| split; [| split]].
  - exact (proj1 (header_filter_continues token_scheme [passes] answers
                    (request_with_header "x-token" "s3cret") (Some "s3cret")
                    eq_refl)
                 "s3cret" (VStr "alice") eq_refl eq_refl eq_refl).
  - reflexivity.
  - apply (proj1 (proj2 (header_filter_continues token_scheme [passes]
                           answers (request_with_header "x-token" "guess")
                           (Some "guess") eq_refl))).
    intros credentials auth Hc Ha. inversion Hc; subst credentials.
    vm_compute in Ha. inversion Ha. reflexivity.
  - exact (proj2 (proj2 (header_filter_continues exhausted_scheme [passes]
                           answers (request_with_header "x-token" "any")
                           (Some "any") eq_refl))
                 "any" (exn_new StopAsyncIteration) eq_refl eq_refl).
Defined.

(** X18.  A request that carries no value under the key of a header
    scheme, or a value for which [authenticate] returns no true value,
    does not go through the filter of the scheme: building the context
    manager names [contextlib], which the module does not import, so the
    chain raises [NameError] and the handler is not called. *)
Theorem header_filter_unauthenticated (self : APIKeySecurityScheme)
    (rest : list filter) (handler : M pyval) (request : Request) :
  ci_get (scheme_key self) (headers (request_message request)) = None
  \/ (exists credentials auth,
        ci_get (scheme_key self) (headers (request_message request))
        = Some credentials
        /\ authenticate self credentials = Return auth
        /\ truthy auth = false) ->
  Chain_handle {| chain_filters := HeaderSecurityScheme_filter self :: rest;
                  chain_handler := handler |}
               (initial request)
  = (started 0 request (initial request), Raise (name_error "contextlib")).
Proof.
  intros H. unfold Chain_handle, bind. simpl.
  unfold key_filter_step, context_manager.
  destruct H as [-> | [credentials [auth [-> [-> Ht]]]]].
  - reflexivity.
  - rewrite Ht. reflexivity.
Qed.

Lemma header_filter_unauthenticated_witness :
  Chain_handle {| chain_filters := [HeaderSecurityScheme_filter token_scheme];
                  chain_handler := answers |}
               (initial (request_for "GET" "/"))
  = (started 0 (request_for "GET" "/") (initial (request_for "GET" "/")),
     Raise (name_error "contextlib"))
  /\ Chain_handle {| chain_filters :=
                       [HeaderSecurityScheme_filter token_scheme];
                     chain_handler := answers |}
                  (initial (request_with_header "x-token" "guess"))
     = (started 0 (request_with_header "x-token" "guess")
          (initial (request_with_header "x-token" "guess")),
        Raise (name_error "contextlib")).
Proof.
  split.
  - apply (header_filter_unauthenticated token_scheme [] answers
             (request_for "GET" "/")).
    left. reflexivity.
  - apply (header_filter_unauthenticated token_scheme [] answers
             (request_with_header "x-token" "guess")).
    right. exists "guess", VNone. repeat split; reflexivity.
Defined.

(** ** [Application.handle] and [handle_error] *)

(** X19.  A request whose path does not start with the mount path is
    refused with [NotFoundError] before anything else happens: the request
    is left as it is and no operation is called; in an application without
    filters, [handle] returns what the error handler makes of that error
    and logs nothing. *)
Theorem outside_mount_path (ext : Externals) (self : Application)
    (w : world) :
  startswith (path (w_request w)) (app_path self) = false ->
  _handle ext self w = (w, Raise (exn_new NotFoundError))
  /\ (filters self = [] ->
      handle ext self w
      = (handled w, error_handler self (exn_new NotFoundError))).
Proof.
  intros Hpre.
  assert (Hh : forall w0, w_request w0 = w_request w ->
             _handle ext self w0 = (w0, Raise (exn_new NotFoundError))).
  { intros w0 Hw0. unfold _handle, bind, get_request, raise.
    rewrite Hw0, Hpre. reflexivity. }
  split; [apply Hh; reflexivity |].
  intros Hf. unfold handle, Chain_handle, bind. rewrite Hf. simpl.
  unfold record. fold (handled w). rewrite (Hh (handled w) eq_refl).
  reflexivity.
Qed.

Lemma outside_mount_path_witness :
  exists response,
    snd (handle ext0 (app_of leaf) (initial (request_for "GET" "api")))
    = Return (VResponse response)
    /\ status response = 404.
Proof.
  rewrite (proj2 (outside_mount_path ext0 (app_of leaf)
                    (initial (request_for "GET" "api")) eq_refl) eq_refl).
  eexists. split; reflexivity.
Defined.

(** X20.  [handle] lets no error of the taxonomy escape: when the error
    handler raises none, whatever [handle] raises is not an
    [fondat.error.Error]. *)
Theorem handle_raises_no_Error (ext : Externals) (self : Application)
    (w : world) (e : exn) :
  (forall err e', error_handler self err = Raise e' -> is_Error e' = false) ->
  snd (handle ext self w) = Raise e ->
  is_Error e = false.
Proof.
  intros Hh. unfold handle.
  destruct (Chain_handle _ w) as [w' [v | ex]]; [discriminate |].
  destruct (is_Error ex) eqn:He; simpl.
  - unfold bind, raise, ret, lift, logger_error.
    destruct (isinstance ex InternalServerError).
    + destruct (exn_cause ex) as [cause |].
      * destruct (exn_args cause); simpl.
        -- intros H. inversion H. reflexivity.
        -- apply Hh.
      * simpl. intros H. inversion H. reflexivity.
    + simpl. apply Hh.
  - destruct (is_Exception ex); simpl.
    + unfold bind, raise, ret, lift, logger_error.
      destruct (exn_args ex); simpl.
      * intros H. inversion H. reflexivity.
      * apply Hh.
    + intros H. inversion H; subst e. exact He.
Qed.

Lemma handle_raises_no_Error_witness :
  snd (handle ext0 (app_of unfinished) (initial (request_for "GET" "/")))
  = Raise (exn_msg IndexError "tuple index out of range")
  /\ is_Error (exn_msg IndexError "tuple index out of range") = false.
Proof.
  split; [reflexivity |].
  apply (handle_raises_no_Error ext0 (app_of unfinished)
           (initial (request_for "GET" "/"))).
  - intros err e' H. discriminate.
  - reflexivity.
Defined.

(** The default error handler never raises: it returns a response
    whose status is the status of the error, whose body is the JSON
    document made of that status and of the first argument of the error
    (or, without arguments, of the documentation of its class), and whose
    [Content-Length] header is the length of that body, which is also the
    length that the body stream declares. *)
Theorem handle_error_response (ext : Externals) (err : exn) :
  exists response stream,
    handle_error ext err = Return (VResponse response)
    /\ status response = exn_status err
    /\ body (response_message response) = Some stream
    /\ chunks stream
       = [json_error ext (exn_status err)
            (match exn_args err with
             | a :: _ => Some a
             | [] => error_doc ext err
             end)]
    /\ content_length stream
       = Some (Z.of_nat (List.length (List.concat (chunks stream))))
    /\ ci_get "Content-Length" (headers (response_message response))
       = Some (str_of_Z (Z.of_nat (List.length (List.concat (chunks stream)))))
    /\ ci_get "Content-Type" (headers (response_message response))
       = Some "application/json".
Proof.
  eexists. eexists. split; [reflexivity |].
  split; [reflexivity |]. split; [reflexivity |].
  split; [reflexivity |]. simpl. rewrite app_nil_r.
  split; [reflexivity |]. split; reflexivity.
Qed.

(** X21.  With the default error handler, an error of the taxonomy other
    than [InternalServerError] raised by the chain becomes a response with
    the status of that error; nothing is logged. *)
Theorem taxonomy_error_response (ext : Externals) (self : Application)
    (w w' : world) (ex : exn) :
  error_handler self = handle_error ext ->
  Chain_handle {| chain_filters := filters self;
                  chain_handler := _handle ext self |} w = (w', Raise ex) ->
  is_Error ex = true ->
  isinstance ex InternalServerError = false ->
  exists response,
    handle ext self w = (w', Return (VResponse response))
    /\ status response = exn_status ex.
Proof.
  intros Hh Hc He Hi. unfold handle. rewrite Hc, He, Hi, Hh. simpl.
  unfold bind, ret, lift. simpl.
  eexists. split; reflexivity.
Qed.

Lemma taxonomy_error_response_witness :
  exists response,
    handle ext0 (app_of guarded) (initial (request_for "GET" "/"))
    = (invoked [] (stripped (app_of guarded)
                     (handled (initial (request_for "GET" "/")))),
       Return (VResponse response))
    /\ status response = 401.
Proof.
  exact (taxonomy_error_response ext0 (app_of guarded)
           (initial (request_for "GET" "/")) _
           (exn_msg UnauthorizedError "who are you")
           eq_refl eq_refl eq_refl eq_refl).
Defined.

(** ** Parameter binding, continued *)

Lemma bind_param_present (ext : Externals) (signature : list Param)
    (name : string) (h h' : hint) (in_param : ParamIn) (w1 w2 : world)
    (v : pyval) :
  param_source name h = (h', in_param) ->
  ParamIn_get ext in_param h' w1 = (w2, Return v) ->
  v <> VNone ->
  bind_param ext signature name h w1
  = (w2,
     (_ <- except_TypeError_ValueError (validate ext v h')
             (fun tve => exn_msg BadRequestError
                           (exn_str tve ++ " in " ++ ParamIn_str in_param)) ;;
      Return v)%result).
Proof.
  intros Hsrc Hget Hv. unfold bind_param. rewrite Hsrc.
  unfold bind. rewrite Hget. unfold lift, ret.
  destruct v; try congruence;
    destruct (except_TypeError_ValueError _ _); reflexivity.
Qed.

(** X22.  When the value resolved for a parameter is present and
    [validate] refuses it with [TypeError] or [ValueError], once the
    parameters before it have been bound, dispatch fails with
    [BadRequestError]; the message is the text of the validation error,
    [ in ] and the description of the source.  The operation is not
    called. *)
Theorem invalid_parameter (ext : Externals) (self : Application)
    (w w1 w2 : world) (f : function) (before after : list (string * hint))
    (name : string) (h h' : hint) (in_param : ParamIn) (params1 : kwargs)
    (v : pyval) (e : exn) :
  dispatches_to self w f (before ++ (name, h) :: after)%list ->
  name <> "return" ->
  bind_params ext (fn_signature f) before [] (stripped self w)
  = (w1, Return params1) ->
  param_source name h = (h', in_param) ->
  ParamIn_get ext in_param h' w1 = (w2, Return v) ->
  v <> VNone ->
  validate ext v h' = Raise e ->
  isinstance e TypeError = true \/ isinstance e ValueError = true ->
  _handle ext self w
  = (w2, Raise (exn_msg BadRequestError
                  (exn_str e ++ " in " ++ ParamIn_str in_param)))
  /\ w_calls w2 = w_calls w.
Proof.
  intros Hd Hname Hbefore Hsrc Hget Hv Hval Hkind. split.
  - rewrite (handle_operation ext self w f _ Hd), bind_params_app, Hbefore.
    simpl. apply String.eqb_neq in Hname. rewrite Hname. unfold bind.
    rewrite (bind_param_present ext _ name h h' in_param w1 w2 v
               Hsrc Hget Hv), Hval.
    unfold except_TypeError_ValueError.
    assert (Ho : orb (isinstance e TypeError) (isinstance e ValueError)
                 = true).
    { destruct Hkind as [-> | ->]; [reflexivity | apply orb_true_r]. }
    rewrite Ho. reflexivity.
  - pose proof (ParamIn_get_calls ext in_param h' w1) as [Hc _].
    rewrite Hget in Hc. simpl in Hc. rewrite Hc.
    pose proof (bind_params_calls ext (fn_signature f) before []
                  (stripped self w)) as Hb.
    rewrite Hbefore in Hb. exact Hb.
Qed.

Lemma invalid_parameter_witness :
  let w := initial (query_request "GET" "/" [("name", "")]) in
  _handle strict (app_of listing) w
  = (stripped (app_of listing) w,
     Raise (exn_msg BadRequestError
              "value shorter than minimum length in query parameter: name")).
Proof.
  simpl.
  refine (proj1 (@invalid_parameter strict (app_of listing)
                   (initial (query_request "GET" "/" [("name", "")])) _ _
                   listing_get [] [("limit", Plain int_type);
                                   ("return", Plain str_type)]
                   "name" (Plain str_type) (Plain str_type) (InQuery "name")
                   [] (VStr "")
                   (exn_msg ValueError "value shorter than minimum length")
                   _ _ eq_refl eq_refl eq_refl _ eq_refl
                   (or_intror eq_refl))).
  - exists listing. repeat split; reflexivity.
  - discriminate.
  - discriminate.
Defined.

(** X23.  When what is found for a parameter read from the query, a
    header or a cookie (a string for the first two, the morsel of the
    cookie for the third) cannot be decoded (the codec of the parameter's
    type, handed what was found, raises [TypeError] or [ValueError]), once
    the parameters before it have been bound, dispatch fails with
    [BadRequestError]; the message is the text of the decoding error,
    [ in ], the kind of source and the key.  The operation is not
    called. *)
Theorem undecodable_parameter (ext : Externals) (self : Application)
    (w w1 : world) (f : function) (before after : list (string * hint))
    (name : string) (h h' : hint) (attr : request_attr)
    (key description : string) (value : found) (params1 : kwargs)
    (c : Codec string found) (e : exn) :
  dispatches_to self w f (before ++ (name, h) :: after)%list ->
  name <> "return" ->
  bind_params ext (fn_signature f) before [] (stripped self w)
  = (w1, Return params1) ->
  param_source name h = (h', _InString attr key description) ->
  request_attr_get attr key (w_request w1) = Some value ->
  is_stream ext h' = false ->
  get_codec_String ext h' = Return c ->
  decode c value = Raise e ->
  isinstance e TypeError = true \/ isinstance e ValueError = true ->
  _handle ext self w
  = (w1, Raise (exn_msg BadRequestError
                  (exn_str e ++ " in " ++ description ++ ": " ++ key)))
  /\ w_calls w1 = w_calls w.
Proof.
  intros Hd Hname Hbefore Hsrc Hval Hstream Hc Hdec Hkind. split.
  - rewrite (handle_operation ext self w f _ Hd), bind_params_app, Hbefore.
    simpl. apply String.eqb_neq in Hname. rewrite Hname.
    unfold bind, bind_param. rewrite Hsrc. unfold bind. simpl.
    unfold _InString_get. rewrite Hval, Hstream, Hc. simpl. rewrite Hdec.
    simpl.
    assert (Ho : orb (isinstance e TypeError) (isinstance e ValueError)
                 = true).
    { destruct Hkind as [-> | ->]; [reflexivity | apply orb_true_r]. }
    rewrite Ho. reflexivity.
  - pose proof (bind_params_calls ext (fn_signature f) before []
                  (stripped self w)) as Hb.
    rewrite Hbefore in Hb. exact Hb.
Qed.

Lemma undecodable_parameter_witness :
  let w := initial (query_request "GET" "/" [("name", "a"); ("limit", "ten")])
  in
  snd (_handle strict (app_of listing) w)
  = Raise (exn_msg BadRequestError
             "invalid literal for int() in query parameter: limit")
  /\ snd (_handle strict (app_of account)
            (initial (request_with_cookie "session" "abc")))
     = Raise (exn_msg BadRequestError
                "expecting str in request cookie: session").
Proof.
  intros w. unfold w. clear w.
  rewrite (proj1 (@undecodable_parameter strict (app_of account)
                    (initial (request_with_cookie "session" "abc"))
                    (stripped (app_of account)
                       (initial (request_with_cookie "session" "abc")))
                    account_get [] [("return", Plain str_type)]
                    "session"
                    (Annotated str_type [AnnParamIn (InCookie "session")])
                    (Plain str_type) attr_cookies
                    "session" "request cookie" (Morsel "session" "abc") []
                    string_codec
                    (exn_msg TypeError "expecting str")
                    ltac:(exists account; repeat split; reflexivity)
                    ltac:(discriminate) eq_refl eq_refl eq_refl eq_refl
                    eq_refl eq_refl (or_introl eq_refl))).
  rewrite (proj1 (@undecodable_parameter strict (app_of listing)
                    (initial (query_request "GET" "/"
                                [("name", "a"); ("limit", "ten")]))
                    (stripped (app_of listing)
                       (initial (query_request "GET" "/"
                                   [("name", "a"); ("limit", "ten")])))
                    listing_get [("name", Plain str_type)]
                    [("return", Plain str_type)]
                    "limit" (Plain int_type) (Plain int_type) attr_query
                    "limit" "query parameter" (Text "ten")
                    [("name", VStr "a")]
                    int_codec
                    (exn_msg ValueError "invalid literal for int()")
                    ltac:(exists listing; repeat split; reflexivity)
                    ltac:(discriminate) eq_refl eq_refl eq_refl eq_refl
                    eq_refl eq_refl (or_intror eq_refl))).
  split; reflexivity.
Defined.

(** X24.  A parameter read from the body whose type is not a stream type
    is absent when the request has no body or a body without content,
    whatever codec its type has; a parameter of a stream type receives the
    body of the request itself, or [None] without body, and the request is
    left as it is. *)
Theorem body_source_edges (ext : Externals) (h : hint) (request : Request) :
  (is_stream ext h = false ->
   match body (request_message request) with
   | Some s => List.concat (chunks s) = []
   | None => True
   end ->
   snd (_InBody_get ext InBody h request) = Return VNone)
  /\ (is_stream ext h = true ->
      _InBody_get ext InBody h request
      = (request,
         Return (match body (request_message request) with
                 | Some s => VStream s
                 | None => VNone
                 end))).
Proof.
  unfold _InBody_get. split; intros Hs; rewrite Hs; [| reflexivity].
  destruct (body (request_message request)) as [s |].
  - unfold read_all. intros Hempty. rewrite Hempty. reflexivity.
  - intros _. reflexivity.
Qed.

Lemma body_source_edges_witness :
  snd (_InBody_get ext0 InBody (Plain bytes_class)
         (request_with_body "POST" "/" empty_stream))
  = Return VNone.
Proof.
  apply (proj1 (body_source_edges ext0 (Plain bytes_class)
                  (request_with_body "POST" "/" empty_stream))).
  - reflexivity.
  - reflexivity.
Defined.

Lemma dict_set_keys (name : string) (v : pyval) (params : kwargs) :
  ~ In name (map fst params) ->
  map fst (dict_set name v params) = (map fst params ++ [name])%list.
Proof.
  induction params as [| [k x] rest IH]; intros Hnot; simpl.
  - reflexivity.
  - simpl in Hnot. destruct (String.eqb k name) eqn:Hk.
    + apply String.eqb_eq in Hk. exfalso. apply Hnot. left. exact Hk.
    + simpl. rewrite IH; [reflexivity |].
      intros Hin. apply Hnot. right. exact Hin.
Qed.

Lemma bind_params_keys (ext : Externals) (signature : list Param)
    (hints : list (string * hint)) :
  NoDup (map fst hints) ->
  forall (params params' : kwargs) (w w' : world),
    (forall name, In name (map fst hints) -> ~ In name (map fst params)) ->
    bind_params ext signature hints params w = (w', Return params') ->
    map fst params' = (map fst params ++ bound_names hints)%list.
Proof.
  induction hints as [| [name h] rest IH];
    intros Hnd params params' w w' Hfresh Hb.
  - simpl in Hb. inversion Hb. unfold bound_names. simpl.
    rewrite app_nil_r. reflexivity.
  - simpl in Hnd. inversion Hnd as [| ? ? Hnotin Hnd']; subst.
    simpl in Hb. unfold bound_names. simpl.
    destruct (String.eqb name "return") eqn:Hret; simpl.
    + apply (IH Hnd' params params' w w'); [| exact Hb].
      intros n Hin. apply Hfresh. right. exact Hin.
    + unfold bind in Hb.
      destruct (bind_param ext signature name h w) as [w1 [v | e]];
        [| discriminate].
      assert (Hkeys : map fst (dict_set name v params)
                      = (map fst params ++ [name])%list)
        by (apply dict_set_keys; apply Hfresh; left; reflexivity).
      assert (Hfresh' : forall n, In n (map fst rest) ->
                ~ In n (map fst (dict_set name v params))).
      { intros n Hin Hin'.
        assert (Hne : n <> name) by (intros ->; exact (Hnotin Hin)).
        rewrite Hkeys in Hin'. apply in_app_or in Hin'.
        destruct Hin' as [Hin' | [Hin' | []]].
        - apply (Hfresh n (or_intror Hin) Hin').
        - apply Hne. symmetry. exact Hin'. }
      rewrite (IH Hnd' _ _ _ _ Hfresh' Hb), Hkeys, <- app_assoc.
      reflexivity.
Qed.

(** X25.  When dispatch reaches the call of the operation, the keyword
    arguments are exactly the parameters that have a type hint, in the
    order of the hints: none is left out, whether its value was present
    or not, and nothing else is passed. *)
Theorem call_binds_hinted_names (ext : Externals) (self : Application)
    (w : world) (f : function) (hints : list (string * hint))
    (params : kwargs) :
  dispatches_to self w f hints ->
  NoDup (map fst hints) ->
  In (Invoked params) (w_calls (fst (_handle ext self w))) ->
  ~ In (Invoked params) (w_calls w) ->
  map fst params = bound_names hints.
Proof.
  intros Hd Hnd Hin Hnot.
  rewrite (handle_operation ext self w f hints Hd) in Hin.
  pose proof (bind_params_calls ext (fn_signature f) hints []
                (stripped self w)) as Hc.
  destruct (bind_params ext (fn_signature f) hints [] (stripped self w))
    as [w1 [params' | e]] eqn:Hb; simpl in Hin, Hc.
  - rewrite Hc in Hin. apply in_app_or in Hin.
    destruct Hin as [Hin | [Hin | []]]; [contradiction |].
    inversion Hin; subst params'.
    apply (bind_params_keys ext (fn_signature f) hints Hnd [] params
             (stripped self w) w1); [| exact Hb].
    intros n _ [].
  - rewrite Hc in Hin. contradiction.
Qed.

Lemma call_binds_hinted_names_witness :
  map fst [("name", VStr "a"); ("limit", VNone)]
  = bound_names [("name", Plain str_type); ("limit", Plain int_type);
                 ("return", Plain str_type)].
Proof.
  apply (call_binds_hinted_names ext0 (app_of listing)
           (initial (query_request "GET" "/" [("name", "a")])) listing_get).
  - exists listing. repeat split; reflexivity.
  - repeat constructor; simpl; intuition discriminate.
  - left. reflexivity.
  - intros [].
Defined.

(** ** Response encoding, continued *)

(** X26.  For an operation whose return type is not a stream type, when
    the result is valid and the codec of the return type encodes it to
    [content], dispatch answers with that content as body and the content
    type of the codec; the status is 204 and there is no [Content-Length]
    header exactly when the content is empty, and otherwise the status is
    200 and the header is the length of the content. *)
Theorem encoded_response (ext : Externals) (return_hint : hint)
    (result_ : pyval) (c : Codec bytes bytes) (content : bytes) :
  is_stream ext return_hint = false ->
  validate ext result_ return_hint = Return tt ->
  get_codec_Binary ext return_hint = Return c ->
  encode c result_ = Return content ->
  exists response,
    respond ext return_hint result_ = Return (VResponse response)
    /\ body (response_message response)
       = Some (BytesStream content (codec_content_type c))
    /\ ci_get "Content-Type" (headers (response_message response))
       = Some (codec_content_type c)
    /\ status response
       = (match content with [] => HTTPStatus_NO_CONTENT
                           | _ => HTTPStatus_OK end)
    /\ ci_get "Content-Length" (headers (response_message response))
       = (match content with
          | [] => None
          | _ => Some (str_of_Z (Z.of_nat (List.length content)))
          end).
Proof.
  intros Hs Hv Hc He. unfold respond. rewrite Hv. simpl.
  rewrite Hs. simpl. rewrite Hc. simpl. rewrite He. simpl.
  destruct content as [| b rest].
  - eexists. repeat split; reflexivity.
  - assert (Hn : Z.eqb (Z.of_nat (List.length (b :: rest))) 0 = false).
    { apply Z.eqb_neq. simpl List.length. lia. }
    rewrite Hn. eexists. repeat split; reflexivity.
Qed.

Lemma encoded_response_witness :
  exists response,
    respond ext0 (Plain str_type) (VStr "ok") = Return (VResponse response)
    /\ status response = 200
    /\ ci_get "Content-Length" (headers (response_message response))
       = Some "1".
Proof.
  destruct (encoded_response ext0 (Plain str_type) (VStr "ok") binary_codec
              [Byte.x6f] eq_refl eq_refl eq_refl eq_refl)
    as [response [H1 [_ [_ [H4 H5]]]]].
  exists response. split; [exact H1 | split; [exact H4 | exact H5]].
Defined.

(** ** Parameter sources, continued *)

(** X27.  Among the metadata of an annotated hint, the first parameter
    source decides where the parameter is read: whatever follows it, other
    sources included, is not consulted; without any source, the parameter
    is read from the query string under its own name. *)
Theorem first_source_wins (name : string) (t : pytype)
    (others rest : list annotation) (p : ParamIn) :
  Forall not_a_source others ->
  param_source name (Annotated t (others ++ AnnParamIn p :: rest))
  = (Plain t, p)
  /\ param_source name (Annotated t others) = (Plain t, InQuery name).
Proof.
  intros Hall. unfold param_source.
  induction Hall as [| a others Ha _ [IH1 IH2]]; simpl.
  - split; reflexivity.
  - destruct a as [q | label]; [destruct Ha |].
    split; [exact IH1 | exact IH2].
Qed.

Lemma first_source_wins_witness :
  param_source "name" two_sources = (Plain str_type, InHeader "X-Name").
Proof.
  apply (proj1 (first_source_wins "name" str_type [AnnOther "note"]
                  [AnnParamIn (InQuery "name")] (InHeader "X-Name")
                  ltac:(repeat constructor))).
Defined.

(** ** The application, continued *)

Lemma handle_calls (ext : Externals) (self : Application) (w : world) :
  (w_calls (fst (_handle ext self w)) = w_calls w
   \/ exists params,
        w_calls (fst (_handle ext self w))
        = (w_calls w ++ [Invoked params])%list)
  /\ w_log (fst (_handle ext self w)) = w_log w.
Proof.
  unfold _handle, bind, get_request, set_request, lift, raise, record.
  destruct (startswith (path (w_request w)) (app_path self)); simpl;
    [| split; [left |]; reflexivity].
  destruct (traverse _ _) as [resource | e]; simpl;
    [| split; [left |]; reflexivity].
  destruct (is_operation _); simpl; [| split; [left |]; reflexivity].
  destruct (as_function _) as [f | e]; simpl;
    [| split; [left |]; reflexivity].
  destruct (fn_hints f) as [hints | e]; simpl;
    [| split; [left |]; reflexivity].
  match goal with
  | |- context [bind_params ?e ?s ?h ?p ?w0] =>
      pose proof (bind_params_calls e s h p w0) as Hc;
      assert (Hl : w_log (fst (bind_params e s h p w0)) = w_log w0);
      [| destruct (bind_params e s h p w0) as [w1 [params | e']]]
  end.
  - clear Hc.
    match goal with
    | |- w_log (fst (bind_params ?e ?s ?h ?p ?w0)) = _ =>
        generalize p; generalize w0
    end.
    induction hints as [| [name h] rest IH]; intros w0 p.
    + reflexivity.
    + simpl. destruct (String.eqb name "return"); [apply IH |].
      unfold bind.
      assert (Hp : w_log (fst (bind_param ext (fn_signature f) name h w0))
                   = w_log w0).
      { unfold bind_param. destruct (param_source name h) as [h' in_param].
        unfold bind.
        pose proof (ParamIn_get_calls ext in_param h' w0) as [_ Hlog].
        destruct (ParamIn_get ext in_param h' w0) as [w2 [v | e']];
          simpl in Hlog; [| exact Hlog].
        unfold lift, ret, raise.
        destruct v;
          try (destruct (except_TypeError_ValueError _ _); exact Hlog).
        destruct (parameters_get name (fn_signature f)) as [q | e'];
          [| exact Hlog].
        destruct (p_default q); [exact Hlog |].
        destruct (is_optional ext h'); exact Hlog. }
      destruct (bind_param ext (fn_signature f) name h w0) as [w2 [v | e']];
        simpl in Hp.
      * rewrite IH. exact Hp.
      * exact Hp.
  - simpl in Hc, Hl.
    destruct (fn_call f params) as [v | e']; simpl.
    + split; [right; exists params; rewrite Hc; reflexivity | exact Hl].
    + split; [right; exists params; rewrite Hc; reflexivity | exact Hl].
  - simpl in Hc, Hl. split; [left; exact Hc | exact Hl].
Qed.

(** X28.  Dispatch calls at most one operation, at most once: what
    [_handle] adds to the call log is nothing or one call; when it fails
    with [NotFoundError] or [MethodNotAllowedError] that it raised itself
    before binding, nothing was called.  It logs nothing. *)
Theorem dispatch_calls_once (ext : Externals) (self : Application)
    (w : world) :
  (w_calls (fst (_handle ext self w)) = w_calls w
   \/ exists params,
        w_calls (fst (_handle ext self w))
        = (w_calls w ++ [Invoked params])%list)
  /\ w_log (fst (_handle ext self w)) = w_log w
  /\ (forall resource,
        resolves_to self w resource ->
        is_operation (getattr resource (operation_name w)) = false ->
        w_calls (fst (_handle ext self w)) = w_calls w)
  /\ (startswith (path (w_request w)) (app_path self) = false ->
      w_calls (fst (_handle ext self w)) = w_calls w).
Proof.
  destruct (handle_calls ext self w) as [Hc Hl].
  split; [exact Hc | split; [exact Hl | split]].
  - intros resource Hres Hop.
    rewrite (handle_no_operation ext self w resource Hres Hop). reflexivity.
  - intros Hpre. unfold _handle, bind, get_request, raise.
    rewrite Hpre. reflexivity.
Qed.

Lemma rstrip_endswith (c : ascii) (s : string) :
  endswith (rstrip c s) c = false.
Proof.
  induction s as [| a rest IH]; simpl.
  - reflexivity.
  - destruct (rstrip c rest) as [| b r] eqn:Hr.
    + destruct (Ascii.eqb a c) eqn:Ha; simpl; [reflexivity | exact Ha].
    + simpl. simpl in IH. exact IH.
Qed.

Lemma rstrip_app_char (c : ascii) (s : string) :
  rstrip c (s ++ String c EmptyString) = rstrip c s.
Proof.
  induction s as [| a rest IH]; simpl.
  - rewrite Ascii.eqb_refl. reflexivity.
  - rewrite IH. reflexivity.
Qed.

Lemma rstrip_fixed (c : ascii) (s : string) :
  endswith s c = false -> rstrip c s = s.
Proof.
  induction s as [| a rest IH]; simpl.
  - reflexivity.
  - destruct rest as [| b r].
    + intros Ha. simpl. rewrite Ha. reflexivity.
    + intros H. rewrite (IH H). reflexivity.
Qed.

Lemma endswith_app_char (c : ascii) (s : string) :
  endswith (s ++ String c EmptyString) c = true.
Proof.
  induction s as [| a rest IH]; simpl.
  - apply Ascii.eqb_refl.
  - destruct (rest ++ String c EmptyString) eqn:Hr.
    + destruct rest; discriminate.
    + exact IH.
Qed.

(** What [rstrip] removes is a run of the character at the end. *)
Lemma rstrip_copies (c : ascii) (s : string) :
  exists n, s = rstrip c s ++ copies c n.
Proof.
  induction s as [| a rest [n IH]]; simpl.
  - exists 0%nat. reflexivity.
  - destruct (rstrip c rest) as [| b r] eqn:Hr.
    + simpl in IH. destruct (Ascii.eqb a c) eqn:Ha.
      * apply Ascii.eqb_eq in Ha. subst a. exists (S n). simpl.
        rewrite <- IH. reflexivity.
      * exists n. simpl. rewrite <- IH. reflexivity.
    + exists n. simpl. simpl in IH. rewrite <- IH. reflexivity.
Qed.

(** X29.  An application is made only of a root that is a resource; it
    keeps the root, the filters and the error handler it is given.  Its
    mount path is the given path with the slashes at its end replaced by
    one slash: the given path is a stem that does not end with a slash,
    followed by any number of slashes, and the mount path is that stem
    followed by one slash.  So the mount path ends with a slash, and
    giving the mount path back as path changes nothing. *)
Theorem application_mount_path (root_ : obj) (fs : list filter)
    (handler : exn -> result pyval) (p : string) :
  is_resource root_ = true ->
  exists app,
    Application_init root_ fs handler p = Return app
    /\ root app = root_
    /\ filters app = fs
    /\ error_handler app = handler
    /\ app_path app = rstrip "/" p ++ "/"
    /\ (exists stem n, p = stem ++ copies "/" n
                       /\ endswith stem "/" = false
                       /\ app_path app = stem ++ "/")
    /\ endswith (app_path app) "/" = true
    /\ Application_init root_ fs handler (app_path app) = Return app.
Proof.
  intros Hres. unfold Application_init. rewrite Hres. simpl.
  eexists. split; [reflexivity |]. simpl.
  split; [reflexivity |]. split; [reflexivity |]. split; [reflexivity |].
  split; [reflexivity |]. split; [| split].
  - destruct (rstrip_copies "/" p) as [n Hn].
    exists (rstrip "/" p), n.
    split; [exact Hn | split; [apply rstrip_endswith | reflexivity]].
  - apply endswith_app_char.
  - rewrite rstrip_app_char, (rstrip_fixed _ _ (rstrip_endswith "/" p)).
    reflexivity.
Qed.

Lemma application_mount_path_witness :
  exists app,
    Application_init nested [] (handle_error ext0) "/api//" = Return app
    /\ app_path app = "/api/".
Proof.
  destruct (application_mount_path nested [] (handle_error ext0) "/api//"
              eq_refl) as [app [Happ _]].
  exists app. split; [exact Happ |].
  vm_compute in Happ. inversion Happ. reflexivity.
Defined.

(** [Application.__init__] refuses a root that is not a resource. *)
Lemma application_needs_resource (root_ : obj) (fs : list filter)
    (handler : exn -> result pyval) (p : string) :
  is_resource root_ = false ->
  Application_init root_ fs handler p
  = Raise (exn_msg TypeError "root is not a resource").
Proof.
  intros H. unfold Application_init. rewrite H. reflexivity.
Qed.

(** ** [_summary] *)

Lemma summary_words_prefix (ws : list text) :
  exists rest,
    ws = (summary_words ws ++ rest)%list
    /\ Forall (fun word => endswith_period word = false)
              (removelast (summary_words ws))
    /\ (rest <> [] -> endswith_period (last (summary_words ws) []) = true).
Proof.
  induction ws as [| word ws IH]; simpl.
  - exists []. repeat split; [constructor | intros H; congruence].
  - destruct (endswith_period word) eqn:Hw.
    + exists ws. repeat split; [constructor | intros _; exact Hw].
    + destruct IH as [rest [Heq [Hall Hlast]]].
      exists rest. split; [rewrite Heq at 1; reflexivity |].
      destruct (summary_words ws) as [| x xs] eqn:Hs.
      * split; [constructor |]. intros Hrest. simpl in Hlast.
        specialize (Hlast Hrest). discriminate.
      * split.
        -- constructor; [exact Hw | exact Hall].
        -- exact Hlast.
Qed.

(** The words of [split]: none is empty, none holds whitespace, and put
    end to end they are the string without its whitespace. *)
Lemma split_whitespace_words (s : text) :
  forall cur : text,
    Forall (fun ch => isspace ch = false) cur ->
    Forall (fun word => word <> []
                        /\ Forall (fun ch => isspace ch = false) word)
           (split_whitespace s cur)
    /\ List.concat (split_whitespace s cur)
       = (cur ++ List.filter (fun ch => negb (isspace ch)) s)%list.
Proof.
  induction s as [| ch rest IH]; intros cur Hcur; simpl.
  - destruct cur as [| c cur'].
    + split; [constructor | reflexivity].
    + split.
      * constructor; [| constructor]. split; [discriminate | exact Hcur].
      * simpl. rewrite !app_nil_r. reflexivity.
  - destruct (isspace ch) eqn:Hch; simpl.
    + destruct (IH [] (Forall_nil _)) as [Hall Hcat].
      destruct cur as [| c cur'].
      * split; [exact Hall | exact Hcat].
      * split.
        -- constructor; [| exact Hall]. split; [discriminate | exact Hcur].
        -- simpl. rewrite Hcat. reflexivity.
    + assert (Hcur' : Forall (fun c => isspace c = false) (cur ++ [ch])%list).
      { apply Forall_app. split; [exact Hcur |].
        constructor; [exact Hch | constructor]. }
      destruct (IH _ Hcur') as [Hall Hcat].
      split; [exact Hall |]. rewrite Hcat, <- app_assoc. reflexivity.
Qed.

(** X30.  The summary of a function with a docstring is made of the
    first words of the docstring, separated by single spaces: the words up
    to the first one that ends with a period, which is the last word of
    the summary, or all the words when none ends with a period.  The words
    are the runs of characters of the docstring between whitespace, where
    whitespace is any character that [str.isspace] accepts, also outside
    ASCII: no word is empty or holds whitespace, and together they are the
    docstring without its whitespace.  Without docstring, the summary is
    the capitalized name and a period. *)
Theorem summary_is_first_sentence (capitalize : text -> text)
    (d name : text) :
  d <> [] ->
  exists sentence rest,
    split_whitespace d [] = (sentence ++ rest)%list
    /\ _summary capitalize (Some d) name = join_space sentence
    /\ Forall (fun word => endswith_period word = false) (removelast sentence)
    /\ (rest <> [] -> endswith_period (last sentence []) = true)
    /\ Forall (fun word => word <> []
                           /\ Forall (fun ch => isspace ch = false) word)
              (sentence ++ rest)
    /\ List.concat (sentence ++ rest)
       = List.filter (fun ch => negb (isspace ch)) d
    /\ _summary capitalize None name = (capitalize name ++ [46%N])%list
    /\ _summary capitalize (Some []) name = (capitalize name ++ [46%N])%list.
Proof.
  intros Hd.
  destruct (summary_words_prefix (split_whitespace d []))
    as [rest [Heq [Hall Hlast]]].
  destruct (split_whitespace_words d [] (Forall_nil _)) as [Hwords Hcat].
  exists (summary_words (split_whitespace d [])), rest.
  split; [exact Heq |]. split.
  - destruct d; [congruence | reflexivity].
  - split; [exact Hall |]. split; [exact Hlast |].
    rewrite <- Heq. split; [exact Hwords |]. split; [exact Hcat |].
    split; reflexivity.
Qed.

Lemma summary_is_first_sentence_witness :
  _summary capitalize_ascii (Some docstring) (of_ascii "get")
  = of_ascii "Return the item."
  /\ _summary capitalize_ascii None (of_ascii "get") = of_ascii "Get.".
Proof.
  destruct (summary_is_first_sentence capitalize_ascii docstring
              (of_ascii "get") ltac:(discriminate))
    as [sentence [rest [Hs [Hsum [_ [_ [_ [_ [Hnone _]]]]]]]]].
  split; [reflexivity | exact Hnone].
Defined.
